(** * The tunnel model of the remote explorer and its view projection

  Shallow embedding of [TunnelModel]
  (vs/workbench/services/remote/common/remoteExplorerService, the second
  half of userDataSync.contribution.ts, lines 49-139) and of the getters of
  [TunnelViewModel] (the tunnel view, part_000, lines 59-132 and 320-375),
  followed by the properties of the reconciliation layer; then of what
  surrounds them: [RemoteExplorerService] (lines 187-263 of the first file),
  the getters of [TunnelItem], [TunnelDataSource], [TunnelPanelDescriptor]
  and the command handlers of the view (part_000, lines 296-375 and
  547-673).

  Conventions of the embedding:
  - a JavaScript [number] used as a port is an integer, [Z];
  - an optional field ([local?: number]) is an [option]; [undefined] is
    [None];
  - a [Map<number, V>] is an insertion-ordered list of key/value pairs
    ([JsMap]), because [values()] iterates in insertion order and the view
    model turns that iteration into the displayed item lists;
  - every [Tunnel] object is created by the model at the [set] that stores
    it and is held by exactly one map slot, so the assignment
    [forwarded.get(remote)!.name = name] is the update of the record stored
    in that slot;
  - an [Emitter.fire] appends to the list of events an operation returns;
  - an [async] method is cut at its [await]: the part before it produces
    the request to the tunnel service, the part after it consumes the
    service's reply in whatever state the model has by then. *)

From Stdlib Require Import ZArith List Ascii String Bool Lia.
Import ListNotations.
Local Open Scope Z_scope.

(** ** JavaScript [Map] keyed by numbers *)

Module JsMap.
Section WithValue.
Context {V : Type}.

Definition t : Type := list (Z * V).

(** [new Map()] *)
Definition empty : t := [].

(** [m.get(k)] *)
Fixpoint get (k : Z) (m : t) : option V :=
  match m with
  | [] => None
  | (k', v) :: rest => if k' =? k then Some v else get k rest
  end.

(** [m.has(k)] *)
Definition has (k : Z) (m : t) : bool :=
  match get k m with
  | Some _ => true
  | None => false
  end.

(** [m.set(k, v)]: an existing key keeps its position, a new key goes
    last. *)
Fixpoint set (k : Z) (v : V) (m : t) : t :=
  match m with
  | [] => [(k, v)]
  | (k', v') :: rest =>
      if k' =? k then (k', v) :: rest else (k', v') :: set k v rest
  end.

(** [m.delete(k)] *)
Definition delete (k : Z) (m : t) : t :=
  filter (fun kv => negb (fst kv =? k)) m.

(** [m.size] *)
Definition size (m : t) : Z := Z.of_nat (List.length m).

(** [Array.from(m.values())], and the sequence [m.values()] walks. *)
Definition values (m : t) : list V := List.map snd m.

(** [m.keys()] *)
Definition keys (m : t) : list Z := List.map fst m.

(** [m.get(k)!.field = x]: the object stored at [k] is changed where it
    is; nothing happens to the map itself. *)
Fixpoint update (k : Z) (f : V -> V) (m : t) : t :=
  match m with
  | [] => []
  | (k', v') :: rest =>
      if k' =? k then (k', f v') :: rest else (k', v') :: update k f rest
  end.
End WithValue.
Arguments t : clear implicits.
End JsMap.

(** ** Data *)

(** [URI] of vs/base/common/uri: an object, hence always truthy when it is
  there at all. Only its identity matters here. *)
Record URI : Type := mkURI { uri_text : string }.

(** [RemoteTunnel] of vs/platform/remote/common/tunnel, as far as the model
  reads it. *)
Module RemoteTunnel.
Record t : Type := mk {
  tunnelRemotePort : Z;
  tunnelLocalPort : option Z;
  localAddress : option URI
}.
End RemoteTunnel.

(** [interface Tunnel] *)
Module Tunnel.
Record t : Type := mk {
  remote : Z;
  localUri : URI;
  local : option Z;
  name : option string;
  description : option string;
  closeable : option bool
}.

(** [tunnel.name = n] *)
Definition set_name (n : string) (tunnel : t) : t :=
  {| remote := remote tunnel;
     localUri := localUri tunnel;
     local := local tunnel;
     name := Some n;
     description := description tunnel;
     closeable := closeable tunnel |}.
End Tunnel.

(** What the three emitters of the model fire. [_onForwardPort] is an
  [Emitter<Tunnel>], but the non-null assertion [!] on its argument is
  erased at run time, so the payload is whatever [forwarded.get] returned. *)
Inductive Event : Type :=
| OnForwardPort (payload : option Tunnel.t)
| OnClosePort (remotePort : Z)
| OnPortName (remotePort : Z).

(** Calls the model makes on [ITunnelService]. *)
Inductive ServiceCall : Type :=
| OpenTunnel (remotePort : Z) (localPort : option Z)
| CloseTunnel (remotePort : Z).

(** How the promise of [openTunnel] settles: rejected, or resolved with a
  tunnel or with [undefined]. *)
Inductive OpenReply : Type :=
| Rejected
| Resolved (tunnel : option RemoteTunnel.t).

(** How the promise of an [async] method of the model settles. *)
Inductive Settled : Type :=
| Fulfilled
| Thrown.

(** ** [class TunnelModel] *)

Module TunnelModel.

Record t : Type := mk {
  forwarded : JsMap.t Tunnel.t;
  published : JsMap.t Tunnel.t;
  candidates : JsMap.t Tunnel.t
}.

Definition with_forwarded (f : JsMap.t Tunnel.t -> JsMap.t Tunnel.t) (this : t) : t :=
  {| forwarded := f (forwarded this);
     published := published this;
     candidates := candidates this |}.

Definition with_candidates (f : JsMap.t Tunnel.t -> JsMap.t Tunnel.t) (this : t) : t :=
  {| forwarded := forwarded this;
     published := published this;
     candidates := f (candidates this) |}.

(** A method body: it reads and writes [this] and fires events. *)
Definition M (A : Type) : Type := t -> A * t * list Event.

Definition ret {A} (a : A) : M A := fun this => (a, this, []).

Definition bind {A B} (c : M A) (k : A -> M B) : M B :=
  fun this =>
    let '(a, this1, fired1) := c this in
    let '(b, this2, fired2) := k a this1 in
    (b, this2, fired1 ++ fired2).

Definition gets {A} (f : t -> A) : M A := fun this => (f this, this, []).

Definition modify (f : t -> t) : M unit := fun this => (tt, f this, []).

Definition fire (e : Event) : M unit := fun this => (tt, this, [e]).

Definition when (b : bool) (c : M unit) : M unit := if b then c else ret tt.

Fixpoint forEach {A} (xs : list A) (body : A -> M unit) : M unit :=
  match xs with
  | [] => ret tt
  | x :: rest => bind (body x) (fun _ => forEach rest body)
  end.

Definition value_of {A} (r : A * t * list Event) : A := fst (fst r).
Definition model_of {A} (r : A * t * list Event) : t := snd (fst r).
Definition fired_of {A} (r : A * t * list Event) : list Event := snd r.

Declare Scope model_scope.
Delimit Scope model_scope with model.
Notation "x <- c ;; k" := (bind c (fun x => k))
  (at level 61, c at next level, right associativity) : model_scope.
Notation "c ;; k" := (bind c (fun _ => k))
  (at level 61, right associativity) : model_scope.
Local Open Scope model_scope.

(** The constructor, up to the registration of the callbacks: three empty
    maps. *)
Definition init : t :=
  {| forwarded := JsMap.empty;
     published := JsMap.empty;
     candidates := JsMap.empty |}.

(** The callback of [this.tunnelService.tunnels.then(...)]. *)
Definition seed (tunnels : list RemoteTunnel.t) : M unit :=
  forEach tunnels (fun tunnel =>
    match RemoteTunnel.localAddress tunnel with
    | Some address =>
        modify (with_forwarded
          (JsMap.set (RemoteTunnel.tunnelRemotePort tunnel)
             {| Tunnel.remote := RemoteTunnel.tunnelRemotePort tunnel;
                Tunnel.localUri := address;
                Tunnel.local := RemoteTunnel.tunnelLocalPort tunnel;
                Tunnel.name := None;
                Tunnel.description := None;
                Tunnel.closeable := None |}))
    | None => ret tt
    end).

(** The listener registered on [tunnelService.onTunnelOpened]. *)
Definition onTunnelOpened (tunnel : RemoteTunnel.t) : M unit :=
  let port := RemoteTunnel.tunnelRemotePort tunnel in
  isCandidate <- gets (fun this => JsMap.has port (candidates this)) ;;
  when isCandidate (modify (with_candidates (JsMap.delete port))) ;;
  isForwarded <- gets (fun this => JsMap.has port (forwarded this)) ;;
  match negb isForwarded, RemoteTunnel.localAddress tunnel with
  | true, Some address =>
      modify (with_forwarded
        (JsMap.set port
           {| Tunnel.remote := port;
              Tunnel.localUri := address;
              Tunnel.local := RemoteTunnel.tunnelLocalPort tunnel;
              Tunnel.name := None;
              Tunnel.description := None;
              Tunnel.closeable := None |}))
  | _, _ => ret tt
  end ;;
  entry <- gets (fun this => JsMap.get port (forwarded this)) ;;
  fire (OnForwardPort entry).

(** The listener registered on [tunnelService.onTunnelClosed]. *)
Definition onTunnelClosed (remotePort : Z) : M unit :=
  isForwarded <- gets (fun this => JsMap.has remotePort (forwarded this)) ;;
  when isForwarded
    (modify (with_forwarded (JsMap.delete remotePort)) ;;
     fire (OnClosePort remotePort)).

(** [forward], up to its [await]: the request it sends, if any. *)
Definition forward_call (remote : Z) (local : option Z) : M (option ServiceCall) :=
  isForwarded <- gets (fun this => JsMap.has remote (forwarded this)) ;;
  if negb isForwarded then ret (Some (OpenTunnel remote local)) else ret None.

(** [forward], from its [await] on, given how [openTunnel] settled. *)
Definition forward_resume (remote : Z) (name : option string) (reply : OpenReply)
  : M Settled :=
  match reply with
  | Rejected => ret Thrown
  | Resolved None => ret Fulfilled
  | Resolved (Some tunnel) =>
      match RemoteTunnel.localAddress tunnel with
      | Some address =>
          let newForward :=
            {| Tunnel.remote := RemoteTunnel.tunnelRemotePort tunnel;
               Tunnel.local := RemoteTunnel.tunnelLocalPort tunnel;
               Tunnel.name := name;
               Tunnel.closeable := Some true;
               Tunnel.localUri := address;
               Tunnel.description := None |} in
          modify (with_forwarded (JsMap.set remote newForward)) ;;
          fire (OnForwardPort (Some newForward)) ;;
          ret Fulfilled
      | None => ret Fulfilled
      end
  end.

(** [forward] when the service settles before anything else reaches the
    model. *)
Definition forward (remote : Z) (local : option Z) (name : option string)
    (reply : OpenReply) : M Settled :=
  request <- forward_call remote local ;;
  match request with
  | Some _ => forward_resume remote name reply
  | None => ret Fulfilled
  end.

(** [name(remote, name)] *)
Definition name (remote : Z) (name : string) : M unit :=
  isForwarded <- gets (fun this => JsMap.has remote (forwarded this)) ;;
  when isForwarded
    (modify (with_forwarded (JsMap.update remote (Tunnel.set_name name))) ;;
     fire (OnPortName remote)).

(** [close(remote)]: the promise of [closeTunnel], that is, the call. *)
Definition close (remote : Z) : M ServiceCall :=
  ret (CloseTunnel remote).

(** [a || b] on two possibly undefined objects. *)
Definition or_else {A} (a b : option A) : option A :=
  match a with
  | Some _ => a
  | None => b
  end.

(** [address(remote)] *)
Definition address (remote : Z) : M (option URI) :=
  gets (fun this =>
    match or_else (JsMap.get remote (forwarded this))
                  (JsMap.get remote (published this)) with
    | Some tunnel => Some (Tunnel.localUri tunnel)
    | None => None
    end).

(** Everything that can reach a model after its construction. *)
Inductive Action : Type :=
| Seed (tunnels : list RemoteTunnel.t)
| TunnelOpened (tunnel : RemoteTunnel.t)
| TunnelClosed (remotePort : Z)
| ForwardCall (remote : Z) (local : option Z)
| ForwardResume (remote : Z) (name : option string) (reply : OpenReply)
| Name (remote : Z) (name : string)
| Close (remote : Z)
| Address (remote : Z).

Definition perform (a : Action) : M unit :=
  match a with
  | Seed tunnels => seed tunnels
  | TunnelOpened tunnel => onTunnelOpened tunnel
  | TunnelClosed remotePort => onTunnelClosed remotePort
  | ForwardCall remote local => forward_call remote local ;; ret tt
  | ForwardResume remote name reply => forward_resume remote name reply ;; ret tt
  | Name remote n => name remote n
  | Close remote => close remote ;; ret tt
  | Address remote => address remote ;; ret tt
  end.

(** The states a model goes through. The resolution of the initial tunnel
    list and the continuations of [forward] are allowed at any point and
    any number of times, which only adds states. *)
Inductive reachable : t -> Prop :=
| reachable_init : reachable init
| reachable_step (a : Action) (this : t) :
    reachable this -> reachable (model_of (perform a this)).

End TunnelModel.

(** ** [TunnelViewModel] *)

(** [enum TunnelType] *)
Inductive TunnelType : Type :=
| Candidate
| Published
| Forwarded
| Add.

(** [class TunnelItem], with the constructor's parameters in their order. *)
Module TunnelItem.
Record t : Type := mk {
  tunnelType : TunnelType;
  remote : Z;
  closeable : option bool;
  name : option string;
  _description : option string;
  local : option Z
}.
End TunnelItem.

(** [interface ITunnelGroup] *)
Module ITunnelGroup.
Record t : Type := mk {
  label : string;
  tunnelType : TunnelType;
  items : option (list TunnelItem.t)
}.
End ITunnelGroup.

Module TunnelViewModel.

(** [nls.localize(key, message)] with the default bundle and no argument:
    the message. *)
Definition localize (key message : string) : string := message.

(** [get forwarded()] *)
Definition forwarded (model : TunnelModel.t) : list TunnelItem.t :=
  List.map (fun tunnel =>
      TunnelItem.mk Forwarded (Tunnel.remote tunnel) (Tunnel.closeable tunnel)
        (Tunnel.name tunnel) (Tunnel.description tunnel) (Tunnel.local tunnel))
    (JsMap.values (TunnelModel.forwarded model)).

(** [get published()] *)
Definition published (model : TunnelModel.t) : list TunnelItem.t :=
  List.map (fun tunnel =>
      TunnelItem.mk Published (Tunnel.remote tunnel) (Some false)
        (Tunnel.name tunnel) (Tunnel.description tunnel) (Tunnel.local tunnel))
    (JsMap.values (TunnelModel.published model)).

(** The [while (!iterator.done)] loop of [get candidates()]: [values] is what
    the iterator has left, [candidates] the array pushed to so far. *)
Fixpoint candidates_loop (model : TunnelModel.t) (values : list Tunnel.t)
    (candidates : list TunnelItem.t) : list TunnelItem.t :=
  match values with
  | [] => candidates
  | value :: rest =>
      if negb (JsMap.has (Tunnel.remote value) (TunnelModel.forwarded model))
         && negb (JsMap.has (Tunnel.remote value) (TunnelModel.published model))
      then candidates_loop model rest
             (candidates ++
              [TunnelItem.mk Candidate (Tunnel.remote value) (Some false) None
                 (Tunnel.description value) None])
      else candidates_loop model rest candidates
  end.

(** [get candidates()] *)
Definition candidates (model : TunnelModel.t) : list TunnelItem.t :=
  candidates_loop model (JsMap.values (TunnelModel.candidates model)) [].

(** [groups.push(g)] under [if (c)] *)
Definition push_if {A} (c : bool) (g : A) (groups : list A) : list A :=
  if c then groups ++ [g] else groups.

(** [get groups()] *)
Definition groups (model : TunnelModel.t) : list ITunnelGroup.t :=
  let groups := [] in
  let groups :=
    push_if (0 <? JsMap.size (TunnelModel.forwarded model))
      {| ITunnelGroup.label := localize "remote.tunnelsView.forwarded" "Forwarded";
         ITunnelGroup.tunnelType := Forwarded;
         ITunnelGroup.items := Some (forwarded model) |} groups in
  let groups :=
    push_if (0 <? JsMap.size (TunnelModel.published model))
      {| ITunnelGroup.label := localize "remote.tunnelsView.published" "Published";
         ITunnelGroup.tunnelType := Published;
         ITunnelGroup.items := Some (published model) |} groups in
  let candidates_ := candidates model in
  let groups :=
    push_if (0 <? Z.of_nat (List.length (candidates model)))
      {| ITunnelGroup.label := localize "remote.tunnelsView.candidates" "Candidates";
         ITunnelGroup.tunnelType := Candidate;
         ITunnelGroup.items := Some candidates_ |} groups in
  groups ++
  [{| ITunnelGroup.label := localize "remote.tunnelsView.add" "Add a Port...";
      ITunnelGroup.tunnelType := Add;
      ITunnelGroup.items := None |}].

End TunnelViewModel.

(** ** [TunnelItem]'s getters *)

(** Truthiness of an optional string: defined and not empty. *)
Definition truthy_string (s : option string) : bool :=
  match s with
  | Some EmptyString => false
  | Some _ => true
  | None => false
  end.

(** Truthiness of an optional integer: defined and not zero. *)
Definition truthy_number (n : option Z) : bool :=
  match n with
  | Some 0 => false
  | Some _ => true
  | None => false
  end.

(** An argument of [nls.localize]. *)
Inductive LocalizeArg : Type :=
| ArgString (s : option string)
| ArgNumber (n : option Z).

Module TunnelItemGetters.
Section WithFormat.

(** The formatter of vs/nls: the message with its placeholders [{0}],
    [{1}] filled in from the arguments. *)
Variable format : string -> list LocalizeArg -> string.

(** [nls.localize(key, message, ...args)] with the default bundle. *)
Definition localize (key message : string) (args : list LocalizeArg) : string :=
  format message args.

(** [this.local === this.remote] *)
Definition local_is_remote (this : TunnelItem.t) : bool :=
  match TunnelItem.local this with
  | Some port => port =? TunnelItem.remote this
  | None => false
  end.

(** [get label()] *)
Definition label (this : TunnelItem.t) : string :=
  if truthy_string (TunnelItem.name this) && truthy_number (TunnelItem.local this) then
    localize "remote.tunnelsView.forwardedPortLabel0" "{0}"
      [ArgString (TunnelItem.name this)]
  else if local_is_remote this then
    localize "remote.tunnelsView.forwardedPortLabel1" "{0} to localhost"
      [ArgNumber (Some (TunnelItem.remote this))]
  else if truthy_number (TunnelItem.local this) then
    localize "remote.tunnelsView.forwardedPortLabel2" "{0} to localhost:{1}"
      [ArgNumber (Some (TunnelItem.remote this)); ArgNumber (TunnelItem.local this)]
  else
    localize "remote.tunnelsView.forwardedPortLabel3" "{0} not forwarded"
      [ArgNumber (Some (TunnelItem.remote this))].

(** [get description()] *)
Definition description (this : TunnelItem.t) : option string :=
  if truthy_string (TunnelItem.name this) then
    Some (localize "remote.tunnelsView.forwardedPortDescription0"
            "remote {0} available at {1}"
            [ArgNumber (Some (TunnelItem.remote this)); ArgNumber (TunnelItem.local this)])
  else if local_is_remote this then
    Some (localize "remote.tunnelsView.forwardedPortDescription1" "available at {0}"
            [ArgNumber (TunnelItem.local this)])
  else if truthy_number (TunnelItem.local this) then
    TunnelItem._description this
  else
    TunnelItem._description this.

End WithFormat.
End TunnelItemGetters.

(** ** [class TunnelDataSource] *)

Module TunnelDataSource.

(** What the tree hands to the data source: the view model (with the model
    it projects), an item, or a group. *)
Inductive Element : Type :=
| ViewModelElement (model : TunnelModel.t)
| ItemElement (item : TunnelItem.t)
| GroupElement (group : ITunnelGroup.t).

(** [hasChildren(element)]; an [items] array is truthy even when empty. *)
Definition hasChildren (element : Element) : bool :=
  match element with
  | ViewModelElement _ => true
  | ItemElement _ => false
  | GroupElement group =>
      match ITunnelGroup.items group with
      | Some _ => true
      | None => false
      end
  end.

(** [getChildren(element)] *)
Definition getChildren (element : Element) : list Element :=
  match element with
  | ViewModelElement model => List.map GroupElement (TunnelViewModel.groups model)
  | ItemElement _ => []
  | GroupElement group =>
      match ITunnelGroup.items group with
      | Some items => List.map ItemElement items
      | None => []
      end
  end.

End TunnelDataSource.

(** ** [class TunnelPanelDescriptor] *)

Module TunnelPanelDescriptor.

(** [s.split('+')[0]] *)
Fixpoint first_segment (s : string) : string :=
  match s with
  | EmptyString => EmptyString
  | String c rest =>
      if Ascii.eqb c "+"%char then EmptyString else String c (first_segment rest)
  end.

(** The [remoteAuthority] the constructor computes from
    [environmentService.configuration.remoteAuthority]. *)
Definition remoteAuthority (configured : option string) : option string :=
  if truthy_string configured then
    match configured with
    | Some authority => Some (first_segment authority)
    | None => None
    end
  else None.

End TunnelPanelDescriptor.

(** ** [class RemoteExplorerService] *)

Inductive StorageScope : Type :=
| GLOBAL
| WORKSPACE.

(** [remoteName?: string[] | string] *)
Inductive RemoteName : Type :=
| OneName (name : string)
| ManyNames (names : list string).

(** [interface HelpInformation], over the extension descriptions of
    vs/platform/extensions. *)
Module HelpInformation.
Record t {IExtensionDescription : Type} : Type := mk {
  extensionDescription : IExtensionDescription;
  getStarted : option string;
  documentation : option string;
  feedback : option string;
  issues : option string;
  remoteName : option RemoteName
}.
Arguments t : clear implicits.
End HelpInformation.

(** [IExtensionPointUser<HelpInformation>], as far as the service reads
    it. *)
Module IExtensionPointUser.
Record t {IExtensionDescription : Type} : Type := mk {
  description : IExtensionDescription;
  value : HelpInformation.t IExtensionDescription
}.
Arguments t : clear implicits.
End IExtensionPointUser.

Module RemoteExplorerService.

(** [REMOTE_EXPLORER_TYPE_KEY] *)
Definition REMOTE_EXPLORER_TYPE_KEY : string := "remote.explorerType".

(** What the service does to the outside: writes to the storage service
    and events of its two emitters. *)
Inductive Effect : Type :=
| Store (key value : string) (scope : StorageScope)
| DidChangeTargetType (name : string)
| DidChangeEditable (remote : Z).

Section WithTypes.
(** [IEditableData] of vs/workbench/common/views and
    [IExtensionDescription], with the truthiness of its optional
    [enableProposedApi]. *)
Context {IEditableData IExtensionDescription : Type}.
Variable enableProposedApi : IExtensionDescription -> bool.

Record t : Type := mk {
  _targetType : string;
  _helpInformation : list (HelpInformation.t IExtensionDescription);
  _tunnelModel : TunnelModel.t;
  editable : option (Z * IEditableData)
}.

(** The field initialisers and the constructor, with the model just
    constructed. *)
Definition init : t :=
  {| _targetType := "";
     _helpInformation := [];
     _tunnelModel := TunnelModel.init;
     editable := None |}.

(** [set targetType(name)] *)
Definition set_targetType (name : string) (this : t) : t * list Effect :=
  if negb (String.eqb (_targetType this) name) then
    ({| _targetType := name;
        _helpInformation := _helpInformation this;
        _tunnelModel := _tunnelModel this;
        editable := editable this |},
     [Store REMOTE_EXPLORER_TYPE_KEY name WORKSPACE;
      Store REMOTE_EXPLORER_TYPE_KEY name GLOBAL;
      DidChangeTargetType name])
  else (this, []).

(** [get targetType()] *)
Definition targetType (this : t) : string := _targetType this.

(** [_handleRemoteInfoExtensionPoint(extension, helpInformation)]: the
    array after the call. *)
Definition _handleRemoteInfoExtensionPoint
    (extension : IExtensionPointUser.t IExtensionDescription)
    (helpInformation : list (HelpInformation.t IExtensionDescription))
    : list (HelpInformation.t IExtensionDescription) :=
  let value := IExtensionPointUser.value extension in
  if negb (enableProposedApi (IExtensionPointUser.description extension)) then
    helpInformation
  else if negb (truthy_string (HelpInformation.documentation value))
          && negb (truthy_string (HelpInformation.feedback value))
          && negb (truthy_string (HelpInformation.getStarted value))
          && negb (truthy_string (HelpInformation.issues value)) then
    helpInformation
  else
    helpInformation ++
    [{| HelpInformation.extensionDescription := IExtensionPointUser.description extension;
        HelpInformation.getStarted := HelpInformation.getStarted value;
        HelpInformation.documentation := HelpInformation.documentation value;
        HelpInformation.feedback := HelpInformation.feedback value;
        HelpInformation.issues := HelpInformation.issues value;
        HelpInformation.remoteName := HelpInformation.remoteName value |}].

(** The handler the constructor sets on the [remoteHelp] extension point. *)
Definition remoteHelp_handler
    (extensions : list (IExtensionPointUser.t IExtensionDescription)) (this : t) : t :=
  let helpInformation :=
    fold_left (fun helpInformation extension =>
                 _handleRemoteInfoExtensionPoint extension helpInformation)
      extensions [] in
  {| _targetType := _targetType this;
     _helpInformation := helpInformation;
     _tunnelModel := _tunnelModel this;
     editable := editable this |}.

(** [get helpInformation()] *)
Definition helpInformation (this : t) : list (HelpInformation.t IExtensionDescription) :=
  _helpInformation this.

(** [get tunnelModel()] *)
Definition tunnelModel (this : t) : TunnelModel.t := _tunnelModel this.

(** [setEditable(remote, data)]; [None] is [null]. *)
Definition setEditable (remote : Z) (data : option IEditableData) (this : t)
    : t * list Effect :=
  ({| _targetType := _targetType this;
      _helpInformation := _helpInformation this;
      _tunnelModel := _tunnelModel this;
      editable :=
        match data with
        | None => None
        | Some data => Some (remote, data)
        end |},
   [DidChangeEditable remote]).

(** [getEditableData(remote)] *)
Definition getEditableData (remote : Z) (this : t) : option IEditableData :=
  match editable this with
  | Some (edited, data) => if edited =? remote then Some data else None
  | None => None
  end.

End WithTypes.
Arguments t : clear implicits.
End RemoteExplorerService.

(** ** The commands of the tunnel view *)

(** A number as [parseInt] returns it: [NaN] or an integer (the infinities,
    which only digit strings beyond the range of a double give, are left
    out). *)
Inductive JsNumber : Type :=
| NaN
| Num (n : Z).

Module Commands.

(** The argument of a command handler: [arg instanceof TunnelItem], or
    anything else. *)
Inductive CommandArg : Type :=
| ItemArg (item : TunnelItem.t)
| OtherArg.

(** What a handler does through the services it gets from the accessor. *)
Inductive Effect : Type :=
| Explorer (e : RemoteExplorerService.Effect)
| Model (e : Event)
| ClipboardWriteText (address : URI)
| OpenerOpen (address : URI).

(** The three input boxes of the forward command, by their placeholder. *)
Inductive Prompt : Type :=
| PickRemote
| PickLocal (remote : Z)
| PickName.

(** [namespace NameTunnelAction] *)
Module NameTunnelAction.

(** The [IEditableData] the handler builds. Its [onFinish] closes over
    [arg.remote] and the service, its [validationMessage] is constant; what
    tells one such object from another is the port and the starting value. *)
Record Editable : Type := mkEditable {
  remote : Z;
  startingValue : option string
}.

Definition placeholder : string := "Name port".

Definition validationMessage (value : string) : option string := None.

Section WithDescriptions.
Context {IExtensionDescription : Type}.
Let Service : Type := RemoteExplorerService.t Editable IExtensionDescription.

(** The call [remoteExplorerService.tunnelModel.name(remote, value)]: the
    model the service holds is changed where it is. *)
Definition name_tunnel (port : Z) (value : string) (service : Service)
    : Service * list Effect :=
  let result :=
    TunnelModel.name port value (RemoteExplorerService.tunnelModel service) in
  ({| RemoteExplorerService._targetType := RemoteExplorerService._targetType service;
      RemoteExplorerService._helpInformation :=
        RemoteExplorerService._helpInformation service;
      RemoteExplorerService._tunnelModel := TunnelModel.model_of result;
      RemoteExplorerService.editable := RemoteExplorerService.editable service |},
   List.map Model (TunnelModel.fired_of result)).

(** [onFinish(value, success)] of the object built for [data]. *)
Definition onFinish (data : Editable) (value : string) (success : bool)
    (service : Service) : Service * list Effect :=
  let '(service1, fired1) :=
    if success then name_tunnel (remote data) value service else (service, []) in
  let '(service2, fired2) :=
    RemoteExplorerService.setEditable (remote data) None service1 in
  (service2, fired1 ++ List.map Explorer fired2).

(** [handler()(accessor, arg)] *)
Definition handler (arg : CommandArg) (service : Service) : Service * list Effect :=
  match arg with
  | ItemArg item =>
      let '(service1, fired1) :=
        RemoteExplorerService.setEditable (TunnelItem.remote item)
          (Some {| remote := TunnelItem.remote item;
                   startingValue := TunnelItem.name item |})
          service in
      (service1, List.map Explorer fired1)
  | OtherArg => (service, [])
  end.

End WithDescriptions.
End NameTunnelAction.

(** [namespace ForwardPortAction] *)
Module ForwardPortAction.

(** A run of the handler: the input boxes it showed, in order, and the
    arguments of its call of [tunnelModel.forward], if it made one. *)
Record Run : Type := mkRun {
  asked : list Prompt;
  forward : option (Z * JsNumber * option string)
}.

(** How [parseInt] reads its argument when that is not a string. *)
Definition to_string (answer : option string) : string :=
  match answer with
  | Some s => s
  | None => "undefined"
  end.

Section WithParseInt.
(** The built-in [parseInt]. *)
Variable parseInt : string -> JsNumber.

(** [handler()(accessor, arg)], given what the user answers to each input
    box ([None] when the box is dismissed). *)
Definition handler (arg : CommandArg) (answers : Prompt -> option string) : Run :=
  let '(asked0, remote) :=
    match arg with
    | ItemArg item => ([], Num (TunnelItem.remote item))
    | OtherArg => ([PickRemote], parseInt (to_string (answers PickRemote)))
    end in
  match remote with
  | NaN => {| asked := asked0; forward := None |}
  | Num 0 => {| asked := asked0; forward := None |}
  | Num remote =>
      match answers (PickLocal remote) with
      | None => {| asked := asked0 ++ [PickLocal remote]; forward := None |}
      | Some local =>
          match answers PickName with
          | None =>
              {| asked := asked0 ++ [PickLocal remote; PickName]; forward := None |}
          | Some name =>
              {| asked := asked0 ++ [PickLocal remote; PickName];
                 forward :=
                   Some (remote,
                         if negb (String.eqb local "") then parseInt local else Num remote,
                         if negb (String.eqb name "") then Some name else None) |}
          end
      end
  end.

End WithParseInt.
End ForwardPortAction.

(** [namespace OpenPortInBrowserAction], on the model of the service. *)
Module OpenPortInBrowserAction.
Definition handler (arg : CommandArg) (model : TunnelModel.t) : list Effect :=
  match arg with
  | ItemArg item =>
      let tunnel :=
        if JsMap.has (TunnelItem.remote item) (TunnelModel.forwarded model)
        then JsMap.get (TunnelItem.remote item) (TunnelModel.forwarded model)
        else JsMap.get (TunnelItem.remote item) (TunnelModel.published model) in
      match tunnel with
      | Some tunnel =>
          match TunnelModel.value_of (TunnelModel.address (Tunnel.remote tunnel) model) with
          | Some address => [OpenerOpen address]
          | None => []
          end
      | None => []
      end
  | OtherArg => []
  end.
End OpenPortInBrowserAction.

(** [namespace CopyAddressAction], on the model of the service; the text
    written is [address.toString()]. *)
Module CopyAddressAction.
Definition handler (arg : CommandArg) (model : TunnelModel.t) : list Effect :=
  match arg with
  | ItemArg item =>
      match TunnelModel.value_of (TunnelModel.address (TunnelItem.remote item) model) with
      | Some address => [ClipboardWriteText address]
      | None => []
      end
  | OtherArg => []
  end.
End CopyAddressAction.

End Commands.

(** ** Notions the properties below are stated with *)

(** The entry the seeding and the tunnel-opened reaction store for a tunnel
    with the address [address]. *)
Definition opened_entry (tunnel : RemoteTunnel.t) (address : URI) : Tunnel.t :=
  {| Tunnel.remote := RemoteTunnel.tunnelRemotePort tunnel;
     Tunnel.localUri := address;
     Tunnel.local := RemoteTunnel.tunnelLocalPort tunnel;
     Tunnel.name := None;
     Tunnel.description := None;
     Tunnel.closeable := None |}.

(** The entry of the last tunnel of a list that is on port [r] and has an
    address. *)
Fixpoint last_resolved (r : Z) (tunnels : list RemoteTunnel.t) : option Tunnel.t :=
  match tunnels with
  | [] => None
  | tunnel :: rest =>
      match last_resolved r rest with
      | Some entry => Some entry
      | None =>
          match RemoteTunnel.localAddress tunnel with
          | Some address =>
              if RemoteTunnel.tunnelRemotePort tunnel =? r
              then Some (opened_entry tunnel address) else None
          | None => None
          end
      end
  end.

(** Every entry of a collection is stored under its own remote port. *)
Definition key_consistent (m : JsMap.t Tunnel.t) : Prop :=
  forall k entry, JsMap.get k m = Some entry -> Tunnel.remote entry = k.

(** The tunnel service answers [openTunnel(remote, ...)] with a tunnel on
    [remote]. *)
Definition answers_for_port (a : TunnelModel.Action) : Prop :=
  match a with
  | TunnelModel.ForwardResume remote _ (Resolved (Some tunnel)) =>
      RemoteTunnel.tunnelRemotePort tunnel = remote
  | _ => True
  end.

(** A string has no [+] in it. *)
Fixpoint plus_free (s : string) : Prop :=
  match s with
  | EmptyString => True
  | String c rest => c <> "+"%char /\ plus_free rest
  end.

(** An extension contributes help: it may use proposed API and gives at
    least one non-empty link. *)
Definition contributes_help {IExtensionDescription : Type}
    (enableProposedApi : IExtensionDescription -> bool)
    (extension : IExtensionPointUser.t IExtensionDescription) : bool :=
  let value := IExtensionPointUser.value extension in
  enableProposedApi (IExtensionPointUser.description extension)
  && (truthy_string (HelpInformation.documentation value)
      || truthy_string (HelpInformation.feedback value)
      || truthy_string (HelpInformation.getStarted value)
      || truthy_string (HelpInformation.issues value)).

(** The help entry of an extension: its own description with the links and
    remote names it declares. *)
Definition help_of {IExtensionDescription : Type}
    (extension : IExtensionPointUser.t IExtensionDescription)
    : HelpInformation.t IExtensionDescription :=
  let value := IExtensionPointUser.value extension in
  {| HelpInformation.extensionDescription := IExtensionPointUser.description extension;
     HelpInformation.getStarted := HelpInformation.getStarted value;
     HelpInformation.documentation := HelpInformation.documentation value;
     HelpInformation.feedback := HelpInformation.feedback value;
     HelpInformation.issues := HelpInformation.issues value;
     HelpInformation.remoteName := HelpInformation.remoteName value |}.

(** ** The claims of the specification, where they differ from the code *)

(** What the specification promises of a successful [forward]: the entry at
    [remote] carries the requested remote port, the requested local port (the
    service's one when none was requested), the given name and
    [closeable = true], and the one event fired carries that entry. *)
Definition forward_as_specified (remote : Z) (local : option Z)
    (name : option string) (tunnel : RemoteTunnel.t) (this : TunnelModel.t) : Prop :=
  let result := TunnelModel.forward remote local name (Resolved (Some tunnel)) this in
  exists entry,
    JsMap.get remote (TunnelModel.forwarded (TunnelModel.model_of result)) = Some entry /\
    Tunnel.remote entry = remote /\
    Tunnel.local entry =
      match local with
      | Some port => Some port
      | None => RemoteTunnel.tunnelLocalPort tunnel
      end /\
    Tunnel.name entry = name /\
    Tunnel.closeable entry = Some true /\
    TunnelModel.fired_of result = [OnForwardPort (Some entry)].

(** The candidates the specification wants displayed: those whose port is
    in neither of the other two collections. *)
Definition unclaimed (model : TunnelModel.t) : list Tunnel.t :=
  filter (fun tunnel =>
      negb (JsMap.has (Tunnel.remote tunnel) (TunnelModel.forwarded model)
            || JsMap.has (Tunnel.remote tunnel) (TunnelModel.published model)))
    (JsMap.values (TunnelModel.candidates model)).

(** The item [get candidates()] pushes for a candidate tunnel. *)
Definition candidate_item (value : Tunnel.t) : TunnelItem.t :=
  TunnelItem.mk Candidate (Tunnel.remote value) (Some false) None
    (Tunnel.description value) None.

(** "[openTunnel] fails or returns a tunnel without a resolved address". *)
Definition not_established (reply : OpenReply) : Prop :=
  match reply with
  | Rejected => True
  | Resolved None => True
  | Resolved (Some tunnel) => RemoteTunnel.localAddress tunnel = None
  end.

(** [[g]] when [present], nothing otherwise. *)
Definition shown {A} (present : bool) (g : A) : list A :=
  if present then [g] else [].

(** A collection has at least one entry. *)
Definition nonempty {A} (l : list A) : bool :=
  match l with
  | [] => false
  | _ :: _ => true
  end.

(** ** Facts about [JsMap] *)

Section JsMapFacts.
Context {V : Type}.
Implicit Types (m : JsMap.t V) (k : Z) (v : V).

Lemma get_set_same k v m : JsMap.get k (JsMap.set k v m) = Some v.
Proof.
  induction m as [|[k' v'] rest IH]; cbn.
  - now rewrite Z.eqb_refl.
  - destruct (k' =? k) eqn:E; cbn; rewrite E; auto.
Qed.

Lemma get_set_other k k' v m :
  k <> k' -> JsMap.get k' (JsMap.set k v m) = JsMap.get k' m.
Proof.
  intros Hne. induction m as [|[k0 v0] rest IH]; cbn.
  - destruct (k =? k') eqn:E; [apply Z.eqb_eq in E; contradiction | reflexivity].
  - destruct (k0 =? k) eqn:E; cbn.
    + apply Z.eqb_eq in E. subst k0.
      destruct (k =? k') eqn:E'; [apply Z.eqb_eq in E'; contradiction | reflexivity].
    + now rewrite IH.
Qed.

Lemma get_delete_same k m : JsMap.get k (JsMap.delete k m) = None.
Proof.
  unfold JsMap.delete. induction m as [|[k' v'] rest IH]; cbn; auto.
  destruct (k' =? k) eqn:E; cbn; auto. now rewrite E.
Qed.

Lemma get_delete_other k k' m :
  k <> k' -> JsMap.get k' (JsMap.delete k m) = JsMap.get k' m.
Proof.
  intros Hne. unfold JsMap.delete.
  induction m as [|[k0 v0] rest IH]; cbn; auto.
  destruct (k0 =? k) eqn:E; cbn.
  - apply Z.eqb_eq in E. subst k0.
    destruct (k =? k') eqn:E'; [apply Z.eqb_eq in E'; contradiction | exact IH].
  - now rewrite IH.
Qed.

Lemma get_update k k' (f : V -> V) m :
  JsMap.get k' (JsMap.update k f m) =
  if k =? k' then option_map f (JsMap.get k' m) else JsMap.get k' m.
Proof.
  induction m as [|[k0 v0] rest IH]; cbn.
  - now destruct (k =? k').
  - destruct (k0 =? k) eqn:E; cbn.
    + apply Z.eqb_eq in E. subst k0. now destruct (k =? k').
    + rewrite IH. destruct (k0 =? k') eqn:E'; auto.
      apply Z.eqb_eq in E'. subst k0. rewrite Z.eqb_sym in E. now rewrite E.
Qed.

Lemma keys_update k (f : V -> V) m : JsMap.keys (JsMap.update k f m) = JsMap.keys m.
Proof.
  unfold JsMap.keys. induction m as [|[k0 v0] rest IH]; cbn; auto.
  destruct (k0 =? k); cbn; congruence.
Qed.

Lemma has_set k k' v m :
  JsMap.has k' (JsMap.set k v m) = (k =? k') || JsMap.has k' m.
Proof.
  unfold JsMap.has. destruct (k =? k') eqn:E.
  - apply Z.eqb_eq in E. subst k'. now rewrite get_set_same.
  - rewrite get_set_other; [reflexivity | now apply Z.eqb_neq].
Qed.

Lemma has_delete k k' m :
  JsMap.has k' (JsMap.delete k m) = negb (k =? k') && JsMap.has k' m.
Proof.
  unfold JsMap.has. destruct (k =? k') eqn:E.
  - apply Z.eqb_eq in E. subst k'. now rewrite get_delete_same.
  - rewrite get_delete_other; [reflexivity | now apply Z.eqb_neq].
Qed.

Lemma has_update k k' (f : V -> V) m :
  JsMap.has k' (JsMap.update k f m) = JsMap.has k' m.
Proof.
  unfold JsMap.has. rewrite get_update.
  destruct (k =? k'); auto. now destruct (JsMap.get k' m).
Qed.

Lemma has_true_get k m :
  JsMap.has k m = true <-> exists v, JsMap.get k m = Some v.
Proof.
  unfold JsMap.has. destruct (JsMap.get k m) as [v|].
  - split; eauto.
  - split; [discriminate | intros [v H]; discriminate].
Qed.

Lemma has_false_get k m : JsMap.has k m = false <-> JsMap.get k m = None.
Proof.
  unfold JsMap.has. destruct (JsMap.get k m); split; congruence.
Qed.

Lemma size_pos_nonempty m : (0 <? JsMap.size m) = nonempty m.
Proof. destruct m; reflexivity. Qed.

(** Keys stay distinct, so [size] counts keys. *)
Lemma keys_set_NoDup k v m : NoDup (JsMap.keys m) -> NoDup (JsMap.keys (JsMap.set k v m)).
Proof.
  unfold JsMap.keys.
  assert (Hin : forall m k0, In k0 (List.map fst (JsMap.set k v m)) ->
                             k0 = k \/ In k0 (List.map fst m)).
  { clear m. induction m as [|[k1 v1] rest IH]; cbn; intros k0 H.
    - destruct H as [H|[]]; auto.
    - destruct (k1 =? k); cbn in H; destruct H as [H|H]; auto.
      apply IH in H. tauto. }
  induction m as [|[k1 v1] rest IH]; cbn; intros Hnd.
  - constructor; [intros [] | constructor].
  - inversion Hnd as [|? ? Hnotin Hrest]; subst.
    destruct (k1 =? k) eqn:E; cbn.
    + constructor; assumption.
    + constructor; [| now apply IH].
      intros H. apply Hin in H. destruct H as [H|H]; [| contradiction].
      apply Z.eqb_neq in E. congruence.
Qed.

Lemma keys_delete_NoDup k m : NoDup (JsMap.keys m) -> NoDup (JsMap.keys (JsMap.delete k m)).
Proof.
  unfold JsMap.keys, JsMap.delete.
  induction m as [|[k1 v1] rest IH]; cbn; intros Hnd; auto.
  inversion Hnd as [|? ? Hnotin Hrest]; subst.
  destruct (k1 =? k); cbn; auto.
  constructor; auto.
  intros H. apply Hnotin. apply in_map_iff in H. destruct H as [kv [Hk Hin]].
  apply filter_In in Hin. apply in_map_iff. exists kv. tauto.
Qed.

End JsMapFacts.

(** ** Properties of [TunnelModel] *)

Import TunnelModel.

(** Runs a method body down to its result. *)
Ltac run :=
  unfold onTunnelOpened, onTunnelClosed, forward, forward_call, forward_resume,
    name, close, address, when, bind, gets, modify, fire, ret,
    value_of, model_of, fired_of; cbn.

(** The tunnel-opened reaction fires exactly one event, and its payload is
    what [forwarded.get] returns at the notified port once the reaction has
    run. *)
Lemma onTunnelOpened_fires_lookup (tunnel : RemoteTunnel.t) (this : t) :
  fired_of (onTunnelOpened tunnel this) =
  [OnForwardPort
     (JsMap.get (RemoteTunnel.tunnelRemotePort tunnel)
        (forwarded (model_of (onTunnelOpened tunnel this))))].
Proof.
  run.
  destruct (JsMap.has _ (candidates this)); cbn;
    destruct (JsMap.has _ (forwarded this)); cbn;
    destruct (RemoteTunnel.localAddress tunnel); reflexivity.
Qed.

(** That lookup succeeds as soon as the port was forwarded already or the
    notified tunnel has an address. *)
Lemma onTunnelOpened_payload_defined (tunnel : RemoteTunnel.t) (this : t) :
  JsMap.has (RemoteTunnel.tunnelRemotePort tunnel) (forwarded this) = true \/
  RemoteTunnel.localAddress tunnel <> None ->
  exists entry,
    fired_of (onTunnelOpened tunnel this) = [OnForwardPort (Some entry)] /\
    JsMap.get (RemoteTunnel.tunnelRemotePort tunnel)
      (forwarded (model_of (onTunnelOpened tunnel this))) = Some entry.
Proof.
  intros H. rewrite onTunnelOpened_fires_lookup.
  match goal with |- context [JsMap.get ?k ?m] => destruct (JsMap.get k m) as [entry|] eqn:E end.
  - eauto.
  - exfalso. revert E. run.
    destruct (JsMap.has _ (candidates this)); cbn;
      destruct (JsMap.has _ (forwarded this)) eqn:F; cbn;
      destruct (RemoteTunnel.localAddress tunnel) eqn:A; cbn;
      try rewrite get_set_same; try discriminate;
      try (apply has_true_get in F; destruct F as [v F]; rewrite F; discriminate);
      destruct H; congruence.
Qed.

(** C1, at the input where it fails: a tunnel-opened notification for port
    8080 whose tunnel has no local address reaches a model that does not
    forward 8080. Nothing is inserted, [forwarded.get(8080)] is undefined, and
    the forwarded-port-added event is fired with that undefined payload
    instead of a [Tunnel]. *)
Theorem onTunnelOpened_unresolved_fires_undefined :
  let tunnel := RemoteTunnel.mk 8080 None None in
  JsMap.has 8080 (forwarded init) = false /\
  onTunnelOpened tunnel init = (tt, init, [OnForwardPort None]).
Proof. split; reflexivity. Qed.

(** C5: a tunnel-closed notification for a forwarded port removes its entry,
    leaves every other entry and the other two maps alone and fires one
    port-closed event with the port; for a port that is not forwarded it
    changes nothing and fires nothing. *)
Theorem onTunnelClosed_spec (remotePort : Z) (this : t) :
  (JsMap.has remotePort (forwarded this) = true ->
     let after := model_of (onTunnelClosed remotePort this) in
     forwarded after = JsMap.delete remotePort (forwarded this) /\
     JsMap.has remotePort (forwarded after) = false /\
     (forall k, k <> remotePort ->
        JsMap.get k (forwarded after) = JsMap.get k (forwarded this)) /\
     published after = published this /\
     candidates after = candidates this /\
     fired_of (onTunnelClosed remotePort this) = [OnClosePort remotePort]) /\
  (JsMap.has remotePort (forwarded this) = false ->
     onTunnelClosed remotePort this = (tt, this, [])).
Proof.
  split; intros H; run; rewrite H; cbn.
  - repeat split; auto.
    + apply has_false_get, get_delete_same.
    + intros k Hk. apply get_delete_other. congruence.
  - reflexivity.
Qed.

Lemma onTunnelClosed_spec_witness :
  let uri := mkURI "http://localhost:3000" in
  let entry := Tunnel.mk 3000 uri (Some 3000) None None (Some true) in
  let this := TunnelModel.mk [(3000, entry)] [] [] in
  (JsMap.has 3000 (forwarded this) = true /\
   JsMap.has 3000 (forwarded (model_of (onTunnelClosed 3000 this))) = false /\
   fired_of (onTunnelClosed 3000 this) = [OnClosePort 3000]) /\
  (JsMap.has 3001 (forwarded this) = false /\
   onTunnelClosed 3001 this = (tt, this, [])).
Proof.
  intros uri entry this. split.
  - assert (H : JsMap.has 3000 (forwarded this) = true) by reflexivity.
    split; [exact H|].
    destruct (proj1 (onTunnelClosed_spec 3000 this) H) as (_ & Hgone & _ & _ & _ & Hfired).
    split; assumption.
  - assert (H : JsMap.has 3001 (forwarded this) = false) by reflexivity.
    split; [exact H|].
    exact (proj2 (onTunnelClosed_spec 3001 this) H).
Defined.

(** C7: [address] answers with the [localUri] of the forwarded entry of the
    port if there is one, else with that of its published entry if there is
    one, else with nothing; the model is left as it was and nothing is
    fired. *)
Theorem address_spec (remote : Z) (this : t) :
  model_of (address remote this) = this /\
  fired_of (address remote this) = [] /\
  value_of (address remote this) =
    match JsMap.get remote (forwarded this) with
    | Some tunnel => Some (Tunnel.localUri tunnel)
    | None =>
        match JsMap.get remote (published this) with
        | Some tunnel => Some (Tunnel.localUri tunnel)
        | None => None
        end
    end.
Proof.
  run. repeat split.
  unfold or_else. destruct (JsMap.get remote (forwarded this)); reflexivity.
Qed.

(** C8: [name] on a forwarded port rewrites the [name] field of the stored
    entry and nothing else (same keys in the same order, every other entry
    and field as before, the other two maps untouched) and fires one
    port-name-changed event with the port; on a port that is not forwarded
    it changes nothing and fires nothing. *)
Theorem name_spec (remote : Z) (n : string) (this : t) :
  (JsMap.has remote (forwarded this) = true ->
     let after := model_of (name remote n this) in
     exists before_entry after_entry,
       JsMap.get remote (forwarded this) = Some before_entry /\
       JsMap.get remote (forwarded after) = Some after_entry /\
       Tunnel.name after_entry = Some n /\
       Tunnel.remote after_entry = Tunnel.remote before_entry /\
       Tunnel.localUri after_entry = Tunnel.localUri before_entry /\
       Tunnel.local after_entry = Tunnel.local before_entry /\
       Tunnel.description after_entry = Tunnel.description before_entry /\
       Tunnel.closeable after_entry = Tunnel.closeable before_entry /\
       JsMap.keys (forwarded after) = JsMap.keys (forwarded this) /\
       (forall k, k <> remote ->
          JsMap.get k (forwarded after) = JsMap.get k (forwarded this)) /\
       published after = published this /\
       candidates after = candidates this /\
       fired_of (name remote n this) = [OnPortName remote]) /\
  (JsMap.has remote (forwarded this) = false ->
     name remote n this = (tt, this, [])).
Proof.
  split; intros H.
  - destruct (proj1 (has_true_get _ _) H) as [entry Hentry].
    exists entry, (Tunnel.set_name n entry).
    run. rewrite H. cbn. rewrite get_update, Z.eqb_refl, Hentry. cbn.
    repeat split; auto.
    + apply keys_update.
    + intros k Hk. rewrite get_update.
      destruct (remote =? k) eqn:E; auto.
      apply Z.eqb_eq in E. congruence.
  - run. now rewrite H.
Qed.

Lemma name_spec_witness :
  let uri := mkURI "http://localhost:3000" in
  let entry := Tunnel.mk 3000 uri (Some 3000) None None (Some true) in
  let this := TunnelModel.mk [(3000, entry)] [] [] in
  (JsMap.has 3000 (forwarded this) = true /\
   exists after_entry,
     JsMap.get 3000 (forwarded (model_of (name 3000 "foo" this))) = Some after_entry /\
     Tunnel.name after_entry = Some "foo"%string /\
     fired_of (name 3000 "foo" this) = [OnPortName 3000]) /\
  (JsMap.has 3001 (forwarded this) = false /\
   name 3001 "foo" this = (tt, this, [])).
Proof.
  intros uri entry this. split.
  - assert (H : JsMap.has 3000 (forwarded this) = true) by reflexivity.
    split; [exact H|].
    destruct (proj1 (name_spec 3000 "foo" this) H)
      as (b & a & _ & Hget & Hname & _ & _ & _ & _ & _ & _ & _ & _ & _ & Hfired).
    exists a. split; [exact Hget|]. split; [exact Hname | exact Hfired].
  - assert (H : JsMap.has 3001 (forwarded this) = false) by reflexivity.
    split; [exact H|].
    exact (proj2 (name_spec 3001 "foo" this) H).
Defined.

(** C2, as the specification states it, fails when the service reports
    another local port than the one asked for: [forward(3000, 3000)] answered
    with a tunnel on local port 3001 stores [local = 3001]. *)
Lemma forward_as_specified_counterexample :
  let uri := mkURI "http://localhost:3001" in
  let tunnel := RemoteTunnel.mk 3000 (Some 3001) (Some uri) in
  JsMap.has 3000 (forwarded init) = false /\
  RemoteTunnel.localAddress tunnel = Some uri /\
  ~ forward_as_specified 3000 (Some 3000) None tunnel init.
Proof.
  cbn. repeat split.
  intros (entry & Hget & _ & Hlocal & _).
  cbn in Hget. injection Hget as <-. discriminate Hlocal.
Qed.

(** C2, amended: when [forward(remote, local, name)] finds [remote] not
    forwarded, it asks the service to open the tunnel; when the service
    answers with a tunnel that has a local address, then, whatever reached
    the model in between, [forwarded.get(remote)] is afterwards the entry
    built from that answer: [remote], [local] and [localUri] are the remote
    port, local port and address the tunnel reports (hence [remote] itself
    when the service reports the port it was asked for, and the service's
    choice when no local port was asked for), [name] is the given name and
    [closeable] is true. No other entry and neither of the other two maps
    changes, and exactly one forwarded-port-added event fires, carrying that
    entry. *)
Theorem forward_success (remote : Z) (local : option Z) (n : option string)
    (tunnel : RemoteTunnel.t) (address : URI) (this later : t) :
  JsMap.has remote (forwarded this) = false ->
  RemoteTunnel.localAddress tunnel = Some address ->
  let newForward :=
    {| Tunnel.remote := RemoteTunnel.tunnelRemotePort tunnel;
       Tunnel.localUri := address;
       Tunnel.local := RemoteTunnel.tunnelLocalPort tunnel;
       Tunnel.name := n;
       Tunnel.description := None;
       Tunnel.closeable := Some true |} in
  let settles (start : t) (result : Settled * t * list Event) :=
    value_of result = Fulfilled /\
    JsMap.get remote (forwarded (model_of result)) = Some newForward /\
    (forall k, k <> remote ->
       JsMap.get k (forwarded (model_of result)) = JsMap.get k (forwarded start)) /\
    published (model_of result) = published start /\
    candidates (model_of result) = candidates start /\
    fired_of result = [OnForwardPort (Some newForward)] in
  forward_call remote local this = (Some (OpenTunnel remote local), this, []) /\
  settles later (forward_resume remote n (Resolved (Some tunnel)) later) /\
  settles this (forward remote local n (Resolved (Some tunnel)) this) /\
  (RemoteTunnel.tunnelRemotePort tunnel = remote -> Tunnel.remote newForward = remote) /\
  (RemoteTunnel.tunnelLocalPort tunnel = local -> Tunnel.local newForward = local).
Proof.
  intros Habsent Haddr newForward settles. subst settles. cbv beta.
  split; [| split; [| split] ].
  - run. now rewrite Habsent.
  - run. rewrite Haddr. cbn.
    repeat split; [apply get_set_same |].
    intros k Hk. apply get_set_other. congruence.
  - run. rewrite Habsent. cbn. rewrite Haddr. cbn.
    repeat split; [apply get_set_same |].
    intros k Hk. apply get_set_other. congruence.
  - cbn. auto.
Qed.

Lemma forward_success_witness :
  let uri := mkURI "http://localhost:8080" in
  let tunnel := RemoteTunnel.mk 8080 (Some 8080) (Some uri) in
  let entry := Tunnel.mk 8080 uri (Some 8080) None None (Some true) in
  JsMap.has 8080 (forwarded init) = false /\
  RemoteTunnel.localAddress tunnel = Some uri /\
  JsMap.get 8080
    (forwarded (model_of (forward 8080 None None (Resolved (Some tunnel)) init)))
    = Some entry /\
  fired_of (forward 8080 None None (Resolved (Some tunnel)) init)
    = [OnForwardPort (Some entry)].
Proof.
  intros uri tunnel entry.
  assert (Habsent : JsMap.has 8080 (forwarded init) = false) by reflexivity.
  assert (Haddr : RemoteTunnel.localAddress tunnel = Some uri) by reflexivity.
  destruct (forward_success 8080 None None tunnel uri init init Habsent Haddr)
    as (_ & _ & (_ & Hget & _ & _ & _ & Hfired) & _).
  split; [exact Habsent|]. split; [exact Haddr|]. split; [exact Hget | exact Hfired].
Defined.

(** C4: [forward] on a port that is already forwarded sends nothing to the
    service and is over at once, with the model as it was and no event; when
    the service is asked and its promise rejects, or resolves with no tunnel
    or with a tunnel that has no local address, the rest of [forward] leaves
    the model, in whatever state it is by then, as it finds it and fires no
    event. *)
Theorem forward_without_effect (remote : Z) (local : option Z) (n : option string)
    (reply : OpenReply) (this later : t) :
  (JsMap.has remote (forwarded this) = true ->
     forward_call remote local this = (None, this, [])) /\
  (not_established reply ->
     model_of (forward_resume remote n reply later) = later /\
     fired_of (forward_resume remote n reply later) = []) /\
  (JsMap.has remote (forwarded this) = true \/ not_established reply ->
     model_of (forward remote local n reply this) = this /\
     fired_of (forward remote local n reply this) = []).
Proof.
  assert (Hresume : forall start, not_established reply ->
            model_of (forward_resume remote n reply start) = start /\
            fired_of (forward_resume remote n reply start) = []).
  { intros start H. destruct reply as [|[tunnel|]]; cbn in H; run; auto.
    rewrite H. auto. }
  split; [| split].
  - intros H. run. now rewrite H.
  - apply Hresume.
  - intros H.
    destruct (JsMap.has remote (forwarded this)) eqn:F.
    + run. rewrite F. auto.
    + destruct H as [H|H]; [discriminate|].
      run. rewrite F. cbn.
      destruct reply as [|[tunnel|]]; cbn in H; cbn; auto.
      rewrite H. auto.
Qed.

Lemma forward_without_effect_witness :
  let uri := mkURI "http://localhost:3000" in
  let entry := Tunnel.mk 3000 uri (Some 3000) None None (Some true) in
  let this := TunnelModel.mk [(3000, entry)] [] [] in
  let answer := Resolved (Some (RemoteTunnel.mk 3000 (Some 3000) (Some uri))) in
  let unresolved := Resolved (Some (RemoteTunnel.mk 4000 None None)) in
  (JsMap.has 3000 (forwarded this) = true /\
   forward_call 3000 None this = (None, this, []) /\
   model_of (forward 3000 None None answer this) = this /\
   fired_of (forward 3000 None None answer this) = []) /\
  (not_established unresolved /\
   model_of (forward 4000 None None unresolved this) = this /\
   fired_of (forward 4000 None None unresolved this) = []) /\
  (not_established Rejected /\
   model_of (forward_resume 4000 None Rejected this) = this /\
   fired_of (forward_resume 4000 None Rejected this) = []).
Proof.
  intros uri entry this answer unresolved.
  assert (H : JsMap.has 3000 (forwarded this) = true) by reflexivity.
  assert (U : not_established unresolved) by reflexivity.
  assert (R : not_established Rejected) by exact I.
  split; [| split].
  - destruct (forward_without_effect 3000 None None answer this this) as (Hcall & _ & Hatomic).
    destruct (Hatomic (or_introl H)). auto.
  - destruct (forward_without_effect 4000 None None unresolved this this) as (_ & _ & Hatomic).
    destruct (Hatomic (or_intror U)). auto.
  - destruct (forward_without_effect 4000 None None Rejected this this) as (_ & Hresume & _).
    destruct (Hresume R). auto.
Defined.

(** *** What each action leaves alone *)

Lemma seed_cons (tunnel : RemoteTunnel.t) (rest : list RemoteTunnel.t) (this : t) :
  seed (tunnel :: rest) this =
  seed rest
    (match RemoteTunnel.localAddress tunnel with
     | Some address =>
         with_forwarded
           (JsMap.set (RemoteTunnel.tunnelRemotePort tunnel)
              {| Tunnel.remote := RemoteTunnel.tunnelRemotePort tunnel;
                 Tunnel.localUri := address;
                 Tunnel.local := RemoteTunnel.tunnelLocalPort tunnel;
                 Tunnel.name := None;
                 Tunnel.description := None;
                 Tunnel.closeable := None |}) this
     | None => this
     end).
Proof.
  unfold seed. cbn [forEach]. unfold bind at 1.
  destruct (RemoteTunnel.localAddress tunnel); unfold modify, ret;
    match goal with |- context [forEach rest ?b ?s] => destruct (forEach rest b s) as [[[] ?] ?] end;
    reflexivity.
Qed.

(** Seeding only ever sets entries of [forwarded], and fires nothing. *)
Lemma seed_frame (tunnels : list RemoteTunnel.t) (this : t) :
  published (model_of (seed tunnels this)) = published this /\
  candidates (model_of (seed tunnels this)) = candidates this /\
  fired_of (seed tunnels this) = [] /\
  (forall r, JsMap.has r (forwarded this) = true ->
             JsMap.has r (forwarded (model_of (seed tunnels this))) = true).
Proof.
  revert this. induction tunnels as [|tunnel rest IH]; intros this.
  - cbn. auto.
  - rewrite seed_cons.
    match goal with |- context [seed rest ?s] => destruct (IH s) as (Hp & Hc & Hf & Hh) end.
    rewrite Hp, Hc, Hf.
    destruct (RemoteTunnel.localAddress tunnel); cbn; repeat split; auto.
    intros r Hr. apply Hh. cbn. rewrite has_set, Hr. apply orb_true_r.
Qed.

(** No action writes to [published]; [candidates] is at most deleted from. *)
Lemma perform_frame (a : Action) (this : t) :
  published (model_of (perform a this)) = published this /\
  (candidates (model_of (perform a this)) = candidates this \/
   exists k, candidates (model_of (perform a this)) = JsMap.delete k (candidates this)).
Proof.
  destruct a as [tunnels|tunnel|remotePort|remote local|remote n reply|remote n|remote|remote];
    cbn [perform].
  - destruct (seed_frame tunnels this) as (Hp & Hc & _). auto.
  - run.
    destruct (JsMap.has _ (candidates this)); cbn;
      destruct (JsMap.has _ (forwarded this)); cbn;
      destruct (RemoteTunnel.localAddress tunnel); cbn; eauto.
  - run. destruct (JsMap.has _ (forwarded this)); cbn; auto.
  - run. destruct (JsMap.has _ (forwarded this)); cbn; auto.
  - run. destruct reply as [|[tunnel|]]; cbn; auto.
    destruct (RemoteTunnel.localAddress tunnel); cbn; auto.
  - run. destruct (JsMap.has _ (forwarded this)); cbn; auto.
  - run. auto.
  - run. auto.
Qed.

(** A forwarded port stays forwarded through every action but the
    tunnel-closed notification for that very port. *)
Lemma perform_keeps_forwarded (a : Action) (this : t) (r : Z) :
  JsMap.has r (forwarded this) = true ->
  a <> TunnelClosed r ->
  JsMap.has r (forwarded (model_of (perform a this))) = true.
Proof.
  intros Hr Ha.
  destruct a as [tunnels|tunnel|remotePort|remote local|remote n reply|remote n|remote|remote];
    cbn [perform].
  - now apply seed_frame.
  - run.
    destruct (JsMap.has (RemoteTunnel.tunnelRemotePort tunnel) (candidates this)); cbn;
      destruct (JsMap.has (RemoteTunnel.tunnelRemotePort tunnel) (forwarded this)); cbn;
      destruct (RemoteTunnel.localAddress tunnel); cbn; auto;
      rewrite has_set, Hr; apply orb_true_r.
  - run. destruct (JsMap.has remotePort (forwarded this)); cbn; auto.
    rewrite has_delete, Hr.
    destruct (remotePort =? r) eqn:E; auto.
    apply Z.eqb_eq in E. congruence.
  - run. destruct (JsMap.has remote (forwarded this)); cbn; auto.
  - run. destruct reply as [|[tunnel|]]; cbn; auto.
    destruct (RemoteTunnel.localAddress tunnel); cbn; auto.
    rewrite has_set, Hr. apply orb_true_r.
  - run. destruct (JsMap.has remote (forwarded this)); cbn; auto.
    now rewrite has_update.
  - run. auto.
  - run. auto.
Qed.

#[local] Arguments JsMap.keys : simpl never.

(** The keys of [forwarded] stay pairwise distinct, so that [size] counts
    the forwarded ports. *)
Lemma seed_keys_NoDup (tunnels : list RemoteTunnel.t) (this : t) :
  NoDup (JsMap.keys (forwarded this)) ->
  NoDup (JsMap.keys (forwarded (model_of (seed tunnels this)))).
Proof.
  revert this. induction tunnels as [|tunnel rest IH]; intros this Hnd.
  - exact Hnd.
  - rewrite seed_cons. apply IH.
    destruct (RemoteTunnel.localAddress tunnel); cbn [forwarded with_forwarded with_candidates fst snd]; auto using keys_set_NoDup.
Qed.

Lemma perform_keys_NoDup (a : Action) (this : t) :
  NoDup (JsMap.keys (forwarded this)) ->
  NoDup (JsMap.keys (forwarded (model_of (perform a this)))).
Proof.
  intros Hnd.
  destruct a as [tunnels|tunnel|remotePort|remote local|remote n reply|remote n|remote|remote];
    cbn [perform].
  - now apply seed_keys_NoDup.
  - run.
    destruct (JsMap.has (RemoteTunnel.tunnelRemotePort tunnel) (candidates this)); cbn;
      destruct (JsMap.has (RemoteTunnel.tunnelRemotePort tunnel) (forwarded this)); cbn;
      destruct (RemoteTunnel.localAddress tunnel); cbn [forwarded with_forwarded with_candidates fst snd]; auto using keys_set_NoDup.
  - run. destruct (JsMap.has remotePort (forwarded this)); cbn [forwarded with_forwarded with_candidates fst snd]; auto using keys_delete_NoDup.
  - run. destruct (JsMap.has remote (forwarded this)); cbn; auto.
  - run. destruct reply as [|[tunnel|]]; cbn; auto.
    destruct (RemoteTunnel.localAddress tunnel); cbn [forwarded with_forwarded with_candidates fst snd]; auto using keys_set_NoDup.
  - run. destruct (JsMap.has remote (forwarded this)); cbn [forwarded with_forwarded with_candidates fst snd]; auto.
    now rewrite keys_update.
  - run. auto.
  - run. auto.
Qed.

Lemma reachable_keys_NoDup (this : t) :
  reachable this -> NoDup (JsMap.keys (forwarded this)).
Proof.
  induction 1 as [|a this Hreach IH].
  - constructor.
  - now apply perform_keys_NoDup.
Qed.

(** C6: [close(remote)] is the service's [closeTunnel(remote)] and nothing
    more: the three maps are as before and no event fires. Among everything
    that can reach the model, only the tunnel-closed notification for a port
    takes that port out of [forwarded]. *)
Theorem close_only_delegates (remote : Z) (this : t) :
  close remote this = (CloseTunnel remote, this, []) /\
  (forall (a : Action) (before : t) (r : Z),
     JsMap.has r (forwarded before) = true ->
     JsMap.has r (forwarded (model_of (perform a before))) = false ->
     a = TunnelClosed r).
Proof.
  split; [reflexivity|].
  intros a before r Hbefore Hafter.
  destruct a as [tunnels|tunnel|remotePort|rem local|rem n reply|rem n|rem|rem] eqn:Ea;
    try (rewrite perform_keeps_forwarded in Hafter;
         [discriminate | assumption | discriminate]).
  destruct (Z.eq_dec remotePort r) as [->|Hne]; [reflexivity|].
  rewrite perform_keeps_forwarded in Hafter; [discriminate | assumption | congruence].
Qed.

Lemma close_only_delegates_witness :
  let uri := mkURI "http://localhost:3000" in
  let entry := Tunnel.mk 3000 uri (Some 3000) None None (Some true) in
  let this := TunnelModel.mk [(3000, entry)] [] [] in
  close 3000 this = (CloseTunnel 3000, this, []) /\
  JsMap.has 3000 (forwarded this) = true /\
  JsMap.has 3000 (forwarded (model_of (perform (TunnelClosed 3000) this))) = false /\
  TunnelClosed 3000 = TunnelClosed 3000.
Proof.
  intros uri entry this.
  destruct (close_only_delegates 3000 this) as (Hclose & Honly).
  assert (Hb : JsMap.has 3000 (forwarded this) = true) by reflexivity.
  assert (Ha : JsMap.has 3000 (forwarded (model_of (perform (TunnelClosed 3000) this))) = false)
    by reflexivity.
  split; [exact Hclose|]. split; [exact Hb|]. split; [exact Ha|].
  exact (Honly (TunnelClosed 3000) this 3000 Hb Ha).
Defined.

(** ** Properties of [TunnelViewModel] *)

(** The loop pushes, in iteration order, the items of the tunnels whose port
    is in neither [forwarded] nor [published]. *)
Lemma candidates_loop_filter (model : t) (values : list Tunnel.t) (acc : list TunnelItem.t) :
  TunnelViewModel.candidates_loop model values acc =
  acc ++
  List.map candidate_item
    (filter (fun tunnel =>
         negb (JsMap.has (Tunnel.remote tunnel) (forwarded model)
               || JsMap.has (Tunnel.remote tunnel) (published model)))
       values).
Proof.
  revert acc. induction values as [|value rest IH]; intros acc; cbn.
  - now rewrite app_nil_r.
  - rewrite negb_orb.
    destruct (negb (JsMap.has (Tunnel.remote value) (forwarded model))
              && negb (JsMap.has (Tunnel.remote value) (published model))); cbn.
    + rewrite IH, <- app_assoc. reflexivity.
    + apply IH.
Qed.

Lemma candidates_unclaimed (model : t) :
  TunnelViewModel.candidates model = List.map candidate_item (unclaimed model).
Proof. unfold TunnelViewModel.candidates. now rewrite candidates_loop_filter. Qed.

Lemma push_if_shown {A} (c : bool) (g : A) (groups : list A) :
  TunnelViewModel.push_if c g groups = groups ++ shown c g.
Proof. destruct c; cbn; [reflexivity | now rewrite app_nil_r]. Qed.

Lemma length_pos_nonempty {A} (l : list A) :
  (0 <? Z.of_nat (List.length l)) = nonempty l.
Proof. destruct l; reflexivity. Qed.

Lemma nonempty_map {A B} (f : A -> B) (l : list A) :
  nonempty (List.map f l) = nonempty l.
Proof. destruct l; reflexivity. Qed.

(** C3: in every state of the model, reachable or not, a port that is a key
    of [forwarded] or of [published] is the port of no item of the candidates
    list the view model derives. *)
Theorem candidates_exclude_claimed (model : t) (r : Z) :
  JsMap.has r (forwarded model) = true \/ JsMap.has r (published model) = true ->
  ~ In r (List.map TunnelItem.remote (TunnelViewModel.candidates model)).
Proof.
  intros Hclaimed Hin.
  rewrite candidates_unclaimed, map_map in Hin.
  apply in_map_iff in Hin. destruct Hin as (value & Hremote & Hvalue).
  cbn in Hremote. subst r.
  apply filter_In in Hvalue. destruct Hvalue as (_ & Hkeep).
  apply negb_true_iff, orb_false_iff in Hkeep.
  destruct Hkeep, Hclaimed; congruence.
Qed.

Lemma candidates_exclude_claimed_witness :
  let uri := mkURI "http://localhost:3000" in
  let entry := Tunnel.mk 3000 uri (Some 3000) None None (Some true) in
  let detected := Tunnel.mk 3000 uri None None (Some "node"%string) None in
  let other := Tunnel.mk 5000 uri None None (Some "python"%string) None in
  let model := TunnelModel.mk [(3000, entry)] [] [(3000, detected); (5000, other)] in
  JsMap.has 3000 (forwarded model) = true /\
  List.map TunnelItem.remote (TunnelViewModel.candidates model) = [5000] /\
  ~ In 3000 (List.map TunnelItem.remote (TunnelViewModel.candidates model)).
Proof.
  intros uri entry detected other model.
  assert (H : JsMap.has 3000 (forwarded model) = true) by reflexivity.
  split; [exact H|]. split; [reflexivity|].
  exact (candidates_exclude_claimed model 3000 (or_introl H)).
Defined.

(** C9: [groups] is, in this order, the "Forwarded" group with the forwarded
    items exactly when [forwarded] has an entry, the "Published" group with
    the published items exactly when [published] has an entry, the
    "Candidates" group with the items of the candidates that are in neither
    of the two exactly when there is such a candidate, and the "Add a
    Port..." group, which has no items, always and last. *)
Theorem groups_spec (model : t) :
  TunnelViewModel.groups model =
  shown (nonempty (forwarded model))
    (ITunnelGroup.mk "Forwarded" Forwarded (Some (TunnelViewModel.forwarded model))) ++
  shown (nonempty (published model))
    (ITunnelGroup.mk "Published" Published (Some (TunnelViewModel.published model))) ++
  shown (nonempty (unclaimed model))
    (ITunnelGroup.mk "Candidates" Candidate
       (Some (List.map candidate_item (unclaimed model)))) ++
  [ITunnelGroup.mk "Add a Port..." Add None].
Proof.
  unfold TunnelViewModel.groups, TunnelViewModel.localize.
  rewrite !push_if_shown, !size_pos_nonempty, length_pos_nonempty.
  rewrite candidates_unclaimed, nonempty_map.
  cbn [app]. now rewrite <- !app_assoc.
Qed.

(** C10: in every state the model can reach, [published] and [candidates]
    are empty; hence [address] answers with the address of the forwarded
    entry of the port or with nothing, and [groups] is the "Forwarded" group
    (when something is forwarded) followed by "Add a Port...", with neither
    a "Published" nor a "Candidates" group. *)
Theorem published_candidates_stay_empty (this : t) :
  reachable this ->
  published this = JsMap.empty /\
  candidates this = JsMap.empty /\
  (forall r,
     value_of (address r this) =
     option_map Tunnel.localUri (JsMap.get r (forwarded this))) /\
  List.map ITunnelGroup.tunnelType (TunnelViewModel.groups this) =
    shown (nonempty (forwarded this)) Forwarded ++ [Add].
Proof.
  intros Hreach.
  assert (Hempty : published this = JsMap.empty /\ candidates this = JsMap.empty).
  { induction Hreach as [|a this Hreach [IHp IHc]].
    - split; reflexivity.
    - destruct (perform_frame a this) as (Hp & [Hc | [k Hc]]);
        rewrite Hp, Hc, IHp, ?IHc; split; reflexivity. }
  destruct Hempty as [Hp Hc].
  repeat split; auto.
  - intros r. run. unfold or_else. rewrite Hp.
    destruct (JsMap.get r (forwarded this)); reflexivity.
  - rewrite groups_spec. unfold unclaimed. rewrite Hp, Hc.
    destruct (forwarded this); reflexivity.
Qed.

Lemma published_candidates_stay_empty_witness :
  let uri := mkURI "http://localhost:8080" in
  let tunnel := RemoteTunnel.mk 8080 (Some 8080) (Some uri) in
  let this := model_of (perform (ForwardResume 8080 None (Resolved (Some tunnel))) init) in
  reachable this /\
  JsMap.has 8080 (forwarded this) = true /\
  published this = JsMap.empty /\
  candidates this = JsMap.empty /\
  List.map ITunnelGroup.tunnelType (TunnelViewModel.groups this) = [Forwarded; Add].
Proof.
  intros uri tunnel this.
  assert (Hreach : reachable this) by (apply reachable_step, reachable_init).
  destruct (published_candidates_stay_empty this Hreach) as (Hp & Hc & _ & Hgroups).
  split; [exact Hreach|]. split; [reflexivity|].
  split; [exact Hp|]. split; [exact Hc | exact Hgroups].
Defined.

(** ** Further facts about [JsMap] *)

Section JsMapOrder.
Context {V : Type}.
Implicit Types (m : JsMap.t V) (k : Z) (v : V).

Lemma has_cons k k' v m :
  JsMap.has k ((k', v) :: m) = (k' =? k) || JsMap.has k m.
Proof. unfold JsMap.has. cbn. now destruct (k' =? k). Qed.

(** [set] on a key that is there leaves the order of the keys alone; a new
    key goes last. *)
Lemma keys_set k v m :
  JsMap.keys (JsMap.set k v m) =
  if JsMap.has k m then JsMap.keys m else JsMap.keys m ++ [k].
Proof.
  unfold JsMap.keys. induction m as [|[k' v'] rest IH].
  - reflexivity.
  - rewrite has_cons. cbn [JsMap.set]. destruct (k' =? k) eqn:E.
    + reflexivity.
    + cbn [List.map fst orb app]. rewrite IH. now destruct (JsMap.has k rest).
Qed.

Lemma keys_delete k m :
  JsMap.keys (JsMap.delete k m) = filter (fun k' => negb (k' =? k)) (JsMap.keys m).
Proof.
  unfold JsMap.keys, JsMap.delete. induction m as [|[k' v'] rest IH]; cbn.
  - reflexivity.
  - destruct (k' =? k); cbn; now rewrite IH.
Qed.

Lemma delete_absent k m : JsMap.has k m = false -> JsMap.delete k m = m.
Proof.
  unfold JsMap.delete. induction m as [|[k' v'] rest IH]; intros H.
  - reflexivity.
  - rewrite has_cons in H. apply orb_false_iff in H. destruct H as [E H].
    cbn. rewrite E. cbn. now rewrite IH.
Qed.

(** Deleting a key just set, when it was not there before, gives the map
    back. *)
Lemma delete_set_absent k v m :
  JsMap.has k m = false -> JsMap.delete k (JsMap.set k v m) = m.
Proof.
  unfold JsMap.delete. induction m as [|[k' v'] rest IH]; intros H.
  - cbn. now rewrite Z.eqb_refl.
  - rewrite has_cons in H. apply orb_false_iff in H. destruct H as [E H].
    cbn. rewrite E. cbn. rewrite E. cbn. now rewrite IH.
Qed.

Lemma get_set k k' v m :
  JsMap.get k' (JsMap.set k v m) = if k =? k' then Some v else JsMap.get k' m.
Proof.
  destruct (k =? k') eqn:E.
  - apply Z.eqb_eq in E. subst. apply get_set_same.
  - apply get_set_other. now apply Z.eqb_neq.
Qed.

Lemma get_delete k k' m :
  JsMap.get k' (JsMap.delete k m) = if k =? k' then None else JsMap.get k' m.
Proof.
  destruct (k =? k') eqn:E.
  - apply Z.eqb_eq in E. subst. apply get_delete_same.
  - apply get_delete_other. now apply Z.eqb_neq.
Qed.

End JsMapOrder.

(** ** How the operations of [TunnelModel] compose *)

(** What the model looks like after the tunnel-opened reaction. *)
Lemma onTunnelOpened_model (tunnel : RemoteTunnel.t) (this : t) :
  let port := RemoteTunnel.tunnelRemotePort tunnel in
  model_of (onTunnelOpened tunnel this) =
  {| forwarded :=
       match JsMap.has port (forwarded this), RemoteTunnel.localAddress tunnel with
       | false, Some address =>
           JsMap.set port (opened_entry tunnel address) (forwarded this)
       | _, _ => forwarded this
       end;
     published := published this;
     candidates := JsMap.delete port (candidates this) |}.
Proof.
  destruct this as [f p c]. cbn [forwarded published candidates].
  destruct (JsMap.has (RemoteTunnel.tunnelRemotePort tunnel) c) eqn:C;
    [| rewrite (delete_absent _ _ C)];
    run; rewrite C; cbn;
    destruct (JsMap.has (RemoteTunnel.tunnelRemotePort tunnel) f); cbn;
    destruct (RemoteTunnel.localAddress tunnel); reflexivity.
Qed.

(** What the model looks like after a successful [forward]. *)
Lemma forward_resume_model (remote : Z) (n : option string) (tunnel : RemoteTunnel.t)
    (address : URI) (this : t) :
  RemoteTunnel.localAddress tunnel = Some address ->
  forward_resume remote n (Resolved (Some tunnel)) this =
  let newForward :=
    {| Tunnel.remote := RemoteTunnel.tunnelRemotePort tunnel;
       Tunnel.localUri := address;
       Tunnel.local := RemoteTunnel.tunnelLocalPort tunnel;
       Tunnel.name := n;
       Tunnel.description := None;
       Tunnel.closeable := Some true |} in
  (Fulfilled, with_forwarded (JsMap.set remote newForward) this,
   [OnForwardPort (Some newForward)]).
Proof. intros H. run. rewrite H. reflexivity. Qed.

Lemma last_resolved_remote (r : Z) (tunnels : list RemoteTunnel.t) (entry : Tunnel.t) :
  last_resolved r tunnels = Some entry ->
  Tunnel.remote entry = r /\ Tunnel.name entry = None /\ Tunnel.closeable entry = None.
Proof.
  induction tunnels as [|tunnel rest IH]; cbn; [discriminate|].
  destruct (last_resolved r rest); [exact IH|].
  destruct (RemoteTunnel.localAddress tunnel); [|discriminate].
  destruct (RemoteTunnel.tunnelRemotePort tunnel =? r) eqn:E; [|discriminate].
  intros [= <-]. apply Z.eqb_eq in E. cbn. auto.
Qed.

(** What a lookup in [forwarded] gives once the initial tunnel list has
    been taken in. *)
Lemma seed_get (tunnels : list RemoteTunnel.t) (this : t) (r : Z) :
  JsMap.get r (forwarded (model_of (seed tunnels this))) =
  match last_resolved r tunnels with
  | Some entry => Some entry
  | None => JsMap.get r (forwarded this)
  end.
Proof.
  revert this. induction tunnels as [|tunnel rest IH]; intros this.
  - reflexivity.
  - rewrite seed_cons, IH. cbn [last_resolved].
    destruct (last_resolved r rest); [reflexivity|].
    destruct (RemoteTunnel.localAddress tunnel) as [address|]; [|reflexivity].
    cbn [forwarded with_forwarded]. rewrite get_set.
    now destruct (RemoteTunnel.tunnelRemotePort tunnel =? r).
Qed.

(** Seeding only appends keys. *)
Lemma seed_keys (tunnels : list RemoteTunnel.t) (this : t) :
  exists added,
    JsMap.keys (forwarded (model_of (seed tunnels this))) =
    JsMap.keys (forwarded this) ++ added.
Proof.
  revert this. induction tunnels as [|tunnel rest IH]; intros this.
  - exists []. now rewrite app_nil_r.
  - rewrite seed_cons.
    match goal with |- context [seed rest ?s] => destruct (IH s) as [added Hadded] end.
    rewrite Hadded.
    destruct (RemoteTunnel.localAddress tunnel); [|eauto].
    cbn [forwarded with_forwarded]. rewrite keys_set.
    destruct (JsMap.has _ (forwarded this)); [eauto|].
    rewrite <- app_assoc. eauto.
Qed.

(** X1: once the initial tunnel list is taken in, the entry of a port is
    the one built from the last tunnel of the list on that port that has a
    local address (without name, not closeable), and the entry the model
    had before when the list has no such tunnel; [published] and
    [candidates] are as before and no event is fired. *)
Theorem seed_last_resolved_wins (tunnels : list RemoteTunnel.t) (this : t) (r : Z) :
  JsMap.get r (forwarded (model_of (seed tunnels this))) =
    match last_resolved r tunnels with
    | Some entry => Some entry
    | None => JsMap.get r (forwarded this)
    end /\
  published (model_of (seed tunnels this)) = published this /\
  candidates (model_of (seed tunnels this)) = candidates this /\
  fired_of (seed tunnels this) = [].
Proof.
  split; [apply seed_get|].
  destruct (seed_frame tunnels this) as (Hp & Hc & Hf & _). auto.
Qed.

(** X2: no action reorders the forwarded ports. Every action but a
    tunnel-closed notification keeps the keys of [forwarded] in their order
    and at most appends new ones; a tunnel-closed notification for a
    forwarded port takes that one key out and keeps the others in order. *)
Theorem forwarded_order_stable (a : Action) (this : t) :
  match a with
  | TunnelClosed remotePort =>
      JsMap.keys (forwarded (model_of (perform a this))) =
      filter (fun k => negb (k =? remotePort)) (JsMap.keys (forwarded this))
  | _ =>
      exists added,
        JsMap.keys (forwarded (model_of (perform a this))) =
        JsMap.keys (forwarded this) ++ added
  end.
Proof.
  destruct a as [tunnels|tunnel|remotePort|remote local|remote n reply|remote n|remote|remote];
    cbn [perform].
  - apply seed_keys.
  - rewrite onTunnelOpened_model. cbn [forwarded].
    destruct (JsMap.has _ (forwarded this)) eqn:F.
    + exists []. now rewrite app_nil_r.
    + destruct (RemoteTunnel.localAddress tunnel).
      * rewrite keys_set, F. eauto.
      * exists []. now rewrite app_nil_r.
  - run. destruct (JsMap.has remotePort (forwarded this)) eqn:F;
      cbn [forwarded with_forwarded fst snd].
    + apply keys_delete.
    + rewrite <- keys_delete. now rewrite delete_absent.
  - exists []. rewrite app_nil_r. run.
    now destruct (JsMap.has remote (forwarded this)).
  - destruct reply as [|[tunnel|]];
      try (exists []; now rewrite app_nil_r).
    destruct (RemoteTunnel.localAddress tunnel) as [address|] eqn:A.
    + unfold bind. rewrite (forward_resume_model _ _ _ _ _ A).
      cbn [model_of fst snd forwarded with_forwarded ret]. rewrite keys_set.
      destruct (JsMap.has remote (forwarded this)); [|eauto].
      exists []. now rewrite app_nil_r.
    + exists []. rewrite app_nil_r. run. now rewrite A.
  - exists []. rewrite app_nil_r. run.
    destruct (JsMap.has remote (forwarded this)); cbn [forwarded with_forwarded fst snd];
      [apply keys_update | reflexivity].
  - exists []. now rewrite app_nil_r.
  - exists []. now rewrite app_nil_r.
Qed.

(** X3: a tunnel-opened notification for a port that is already forwarded
    leaves [forwarded] exactly as it is: the entry keeps its name and its
    [closeable] flag, whatever the notified tunnel says, and the event
    carries that entry. *)
Theorem onTunnelOpened_keeps_existing_entry (tunnel : RemoteTunnel.t) (this : t)
    (entry : Tunnel.t) :
  JsMap.get (RemoteTunnel.tunnelRemotePort tunnel) (forwarded this) = Some entry ->
  forwarded (model_of (onTunnelOpened tunnel this)) = forwarded this /\
  published (model_of (onTunnelOpened tunnel this)) = published this /\
  fired_of (onTunnelOpened tunnel this) = [OnForwardPort (Some entry)].
Proof.
  intros Hget.
  assert (Hhas : JsMap.has (RemoteTunnel.tunnelRemotePort tunnel) (forwarded this) = true)
    by (apply has_true_get; eauto).
  rewrite onTunnelOpened_fires_lookup, onTunnelOpened_model.
  cbn [forwarded published]. rewrite Hhas, Hget. auto.
Qed.

Lemma onTunnelOpened_keeps_existing_entry_witness :
  let uri := mkURI "http://localhost:3000" in
  let other := mkURI "http://localhost:3001" in
  let entry := Tunnel.mk 3000 uri (Some 3000) (Some "web"%string) None (Some true) in
  let this := TunnelModel.mk [(3000, entry)] [] [] in
  let tunnel := RemoteTunnel.mk 3000 (Some 3001) (Some other) in
  JsMap.get 3000 (forwarded this) = Some entry /\
  forwarded (model_of (onTunnelOpened tunnel this)) = forwarded this /\
  fired_of (onTunnelOpened tunnel this) = [OnForwardPort (Some entry)].
Proof.
  intros uri other entry this tunnel.
  assert (H : JsMap.get (RemoteTunnel.tunnelRemotePort tunnel) (forwarded this) = Some entry)
    by reflexivity.
  destruct (onTunnelOpened_keeps_existing_entry tunnel this entry H) as (Hf & _ & He).
  split; [exact H|]. split; [exact Hf | exact He].
Defined.

(** X4: the tunnel-opened reaction is idempotent on the model: a second
    notification for the same tunnel changes nothing more, and fires the
    same event with the same payload once again. *)
Theorem onTunnelOpened_twice (tunnel : RemoteTunnel.t) (this : t) :
  onTunnelOpened tunnel (model_of (onTunnelOpened tunnel this)) =
  (tt, model_of (onTunnelOpened tunnel this), fired_of (onTunnelOpened tunnel this)).
Proof.
  set (once := model_of (onTunnelOpened tunnel this)).
  assert (Hmodel : model_of (onTunnelOpened tunnel once) = once).
  { rewrite onTunnelOpened_model. subst once. rewrite onTunnelOpened_model.
    cbn [forwarded published candidates]. f_equal.
    - destruct (JsMap.has _ (forwarded this)) eqn:F.
      + now rewrite F.
      + destruct (RemoteTunnel.localAddress tunnel); [|now rewrite F].
        now rewrite has_set, Z.eqb_refl.
    - apply delete_absent. rewrite has_delete, Z.eqb_refl. reflexivity. }
  assert (Hfired : fired_of (onTunnelOpened tunnel once) = fired_of (onTunnelOpened tunnel this)).
  { rewrite !onTunnelOpened_fires_lookup. now rewrite Hmodel. }
  destruct (onTunnelOpened tunnel once) as [[[] m] f].
  cbn [model_of fired_of fst snd] in Hmodel, Hfired. now subst.
Qed.

(** X5: a tunnel-opened notification touches nothing but its own port: the
    port is no candidate afterwards, every other candidate and every other
    forwarded entry is as before, and [published] is as before. *)
Theorem onTunnelOpened_frame (tunnel : RemoteTunnel.t) (this : t) :
  let port := RemoteTunnel.tunnelRemotePort tunnel in
  let after := model_of (onTunnelOpened tunnel this) in
  JsMap.has port (candidates after) = false /\
  (forall k, k <> port ->
     JsMap.get k (candidates after) = JsMap.get k (candidates this) /\
     JsMap.get k (forwarded after) = JsMap.get k (forwarded this)) /\
  published after = published this.
Proof.
  cbv zeta. rewrite onTunnelOpened_model. cbn [forwarded published candidates].
  split; [| split; [|reflexivity] ].
  - rewrite has_delete, Z.eqb_refl. reflexivity.
  - intros k Hk. split.
    + apply get_delete_other. congruence.
    + destruct (JsMap.has _ (forwarded this)); [reflexivity|].
      destruct (RemoteTunnel.localAddress tunnel); [|reflexivity].
      apply get_set_other. congruence.
Qed.

(** X6: opening and closing undo each other. When a port that is not
    forwarded gets forwarded by a successful [forward] and the tunnel-closed
    notification for it arrives, the model is again exactly what it was
    before the [forward], and the notification fires one port-closed
    event. *)
Theorem forward_then_closed_restores (remote : Z) (n : option string)
    (tunnel : RemoteTunnel.t) (address : URI) (this : t) :
  JsMap.has remote (forwarded this) = false ->
  RemoteTunnel.localAddress tunnel = Some address ->
  onTunnelClosed remote
    (model_of (forward_resume remote n (Resolved (Some tunnel)) this)) =
  (tt, this, [OnClosePort remote]).
Proof.
  intros Habsent Haddr. rewrite (forward_resume_model _ _ _ _ _ Haddr).
  cbv zeta. cbn [model_of fst snd].
  destruct this as [f p c]. cbn [forwarded] in Habsent.
  unfold onTunnelClosed, when, bind, gets, modify, fire, ret.
  cbn [forwarded with_forwarded]. rewrite has_set, Z.eqb_refl.
  cbn [orb app]. unfold with_forwarded. cbn [forwarded published candidates].
  now rewrite (delete_set_absent _ _ _ Habsent).
Qed.

Lemma forward_then_closed_restores_witness :
  let uri := mkURI "http://localhost:3000" in
  let tunnel := RemoteTunnel.mk 3000 (Some 3000) (Some uri) in
  JsMap.has 3000 (forwarded init) = false /\
  RemoteTunnel.localAddress tunnel = Some uri /\
  onTunnelClosed 3000
    (model_of (forward_resume 3000 None (Resolved (Some tunnel)) init)) =
  (tt, init, [OnClosePort 3000]).
Proof.
  intros uri tunnel.
  assert (Habsent : JsMap.has 3000 (forwarded init) = false) by reflexivity.
  assert (Haddr : RemoteTunnel.localAddress tunnel = Some uri) by reflexivity.
  split; [exact Habsent|]. split; [exact Haddr|].
  exact (forward_then_closed_restores 3000 None tunnel uri init Habsent Haddr).
Defined.

(** X7: only [forward] makes an entry closeable. If after an action the
    entry of a port is closeable, then either the port had a closeable entry
    before the action, or the action is the continuation of a [forward] for
    that port. *)
Theorem closeable_only_by_forward (a : Action) (this : t) (k : Z) (entry : Tunnel.t) :
  JsMap.get k (forwarded (model_of (perform a this))) = Some entry ->
  Tunnel.closeable entry = Some true ->
  (exists before,
     JsMap.get k (forwarded this) = Some before /\
     Tunnel.closeable before = Some true) \/
  (exists n reply, a = ForwardResume k n reply).
Proof.
  intros Hget Hcloseable.
  destruct a as [tunnels|tunnel|remotePort|remote local|remote n reply|remote n|remote|remote];
    cbn [perform] in Hget.
  - rewrite seed_get in Hget.
    destruct (last_resolved k tunnels) as [e|] eqn:L; [|eauto].
    injection Hget as ->. apply last_resolved_remote in L.
    destruct L as (_ & _ & L). congruence.
  - rewrite onTunnelOpened_model in Hget. cbn [forwarded] in Hget.
    destruct (JsMap.has _ (forwarded this)); [eauto|].
    destruct (RemoteTunnel.localAddress tunnel); [|eauto].
    rewrite get_set in Hget.
    destruct (RemoteTunnel.tunnelRemotePort tunnel =? k); [|eauto].
    injection Hget as <-. discriminate.
  - revert Hget. run.
    destruct (JsMap.has remotePort (forwarded this)); cbn [forwarded with_forwarded fst snd];
      [|eauto].
    rewrite get_delete. destruct (remotePort =? k); [discriminate | eauto].
  - revert Hget. run. destruct (JsMap.has remote (forwarded this)); eauto.
  - destruct reply as [|[tunnel|]]; [eauto | | eauto].
    destruct (RemoteTunnel.localAddress tunnel) as [address|] eqn:A.
    + unfold bind in Hget. rewrite (forward_resume_model _ _ _ _ _ A) in Hget.
      cbn [model_of fst snd forwarded with_forwarded ret] in Hget.
      rewrite get_set in Hget.
      destruct (remote =? k) eqn:E; [|eauto].
      apply Z.eqb_eq in E. subst. eauto.
    + revert Hget. run. rewrite A. eauto.
  - revert Hget. run.
    destruct (JsMap.has remote (forwarded this)); cbn [forwarded with_forwarded fst snd];
      [|eauto].
    rewrite get_update. destruct (remote =? k); [|eauto].
    destruct (JsMap.get k (forwarded this)) as [before|]; [|discriminate].
    cbn. intros [= <-]. eauto.
  - eauto.
  - eauto.
Qed.

Lemma closeable_only_by_forward_witness :
  let uri := mkURI "http://localhost:8080" in
  let tunnel := RemoteTunnel.mk 8080 (Some 8080) (Some uri) in
  let entry := Tunnel.mk 8080 uri (Some 8080) None None (Some true) in
  let a := ForwardResume 8080 None (Resolved (Some tunnel)) in
  JsMap.get 8080 (forwarded (model_of (perform a init))) = Some entry /\
  Tunnel.closeable entry = Some true /\
  ((exists before,
      JsMap.get 8080 (forwarded init) = Some before /\
      Tunnel.closeable before = Some true) \/
   (exists n reply, a = ForwardResume 8080 n reply)).
Proof.
  intros uri tunnel entry a.
  assert (Hget : JsMap.get 8080 (forwarded (model_of (perform a init))) = Some entry)
    by reflexivity.
  assert (Hc : Tunnel.closeable entry = Some true) by reflexivity.
  split; [exact Hget|]. split; [exact Hc|].
  exact (closeable_only_by_forward a init 8080 entry Hget Hc).
Defined.

(** X8: as long as the tunnel service answers [openTunnel(remote)] with a
    tunnel on [remote], every action keeps each entry of [forwarded] stored
    under its own [remote] port. *)
Theorem forwarded_keys_match_remote (a : Action) (this : t) :
  key_consistent (forwarded this) ->
  answers_for_port a ->
  key_consistent (forwarded (model_of (perform a this))).
Proof.
  intros Hk Ha k entry Hget.
  destruct a as [tunnels|tunnel|remotePort|remote local|remote n reply|remote n|remote|remote];
    cbn [perform] in Hget.
  - rewrite seed_get in Hget.
    destruct (last_resolved k tunnels) as [e|] eqn:L; [|eauto].
    injection Hget as ->. now apply last_resolved_remote in L.
  - rewrite onTunnelOpened_model in Hget. cbn [forwarded] in Hget.
    destruct (JsMap.has _ (forwarded this)); [eauto|].
    destruct (RemoteTunnel.localAddress tunnel); [|eauto].
    rewrite get_set in Hget.
    destruct (RemoteTunnel.tunnelRemotePort tunnel =? k) eqn:E; [|eauto].
    injection Hget as <-. now apply Z.eqb_eq in E.
  - revert Hget. run.
    destruct (JsMap.has remotePort (forwarded this)); cbn [forwarded with_forwarded fst snd];
      [|eauto].
    rewrite get_delete. destruct (remotePort =? k); [discriminate | eauto].
  - revert Hget. run. destruct (JsMap.has remote (forwarded this)); eauto.
  - destruct reply as [|[tunnel|]]; [eauto | | eauto].
    destruct (RemoteTunnel.localAddress tunnel) as [address|] eqn:A.
    + unfold bind in Hget. rewrite (forward_resume_model _ _ _ _ _ A) in Hget.
      cbn [model_of fst snd forwarded with_forwarded ret] in Hget.
      rewrite get_set in Hget.
      destruct (remote =? k) eqn:E; [|eauto].
      apply Z.eqb_eq in E. subst. injection Hget as <-. exact Ha.
    + revert Hget. run. rewrite A. eauto.
  - revert Hget. run.
    destruct (JsMap.has remote (forwarded this)); cbn [forwarded with_forwarded fst snd];
      [|eauto].
    rewrite get_update. destruct (remote =? k); [|eauto].
    destruct (JsMap.get k (forwarded this)) as [before|] eqn:B; [|discriminate].
    cbn. intros [= <-]. cbn. eauto.
  - eauto.
  - eauto.
Qed.

Lemma forwarded_keys_match_remote_witness :
  let uri := mkURI "http://localhost:8080" in
  let tunnel := RemoteTunnel.mk 8080 (Some 8081) (Some uri) in
  let a := ForwardResume 8080 None (Resolved (Some tunnel)) in
  key_consistent (forwarded init) /\
  answers_for_port a /\
  key_consistent (forwarded (model_of (perform a init))).
Proof.
  intros uri tunnel a.
  assert (Hk : key_consistent (forwarded init)) by (intros k e H; discriminate H).
  assert (Ha : answers_for_port a) by reflexivity.
  split; [exact Hk|]. split; [exact Ha|].
  exact (forwarded_keys_match_remote a init Hk Ha).
Defined.

(** X9: when the port got forwarded while [forward] was waiting for the
    service (a tunnel-opened notification came first), the rest of
    [forward] replaces that entry where it is: the forwarded ports and their
    order are the same, no second entry appears, and the entry of the port
    is now the closeable one built from the service's answer. *)
Theorem forward_resume_replaces_in_place (remote : Z) (n : option string)
    (tunnel : RemoteTunnel.t) (address : URI) (later : t) :
  JsMap.has remote (forwarded later) = true ->
  RemoteTunnel.localAddress tunnel = Some address ->
  let after := model_of (forward_resume remote n (Resolved (Some tunnel)) later) in
  JsMap.keys (forwarded after) = JsMap.keys (forwarded later) /\
  JsMap.size (forwarded after) = JsMap.size (forwarded later) /\
  exists entry,
    JsMap.get remote (forwarded after) = Some entry /\
    Tunnel.closeable entry = Some true /\
    Tunnel.name entry = n /\
    Tunnel.localUri entry = address.
Proof.
  intros Hhas Haddr. cbv zeta. rewrite (forward_resume_model _ _ _ _ _ Haddr).
  cbv zeta. cbn [model_of fst snd forwarded with_forwarded].
  assert (Hkeys : forall v, JsMap.keys (JsMap.set remote v (forwarded later)) =
                            JsMap.keys (forwarded later))
    by (intros v; now rewrite keys_set, Hhas).
  split; [apply Hkeys|]. split.
  - unfold JsMap.size. f_equal.
    match goal with |- context [JsMap.set remote ?v _] => specialize (Hkeys v) end.
    unfold JsMap.keys in Hkeys.
    rewrite <- (length_map fst), Hkeys. apply length_map.
  - eexists. split; [apply get_set_same|]. cbn. auto.
Qed.

Lemma forward_resume_replaces_in_place_witness :
  let uri := mkURI "http://localhost:3000" in
  let tunnel := RemoteTunnel.mk 3000 (Some 3000) (Some uri) in
  let later := model_of (onTunnelOpened tunnel init) in
  let after := model_of (forward_resume 3000 (Some "web"%string) (Resolved (Some tunnel)) later) in
  JsMap.has 3000 (forwarded later) = true /\
  RemoteTunnel.localAddress tunnel = Some uri /\
  JsMap.keys (forwarded after) = JsMap.keys (forwarded later) /\
  JsMap.size (forwarded after) = JsMap.size (forwarded later).
Proof.
  intros uri tunnel later after.
  assert (Hhas : JsMap.has 3000 (forwarded later) = true) by reflexivity.
  assert (Haddr : RemoteTunnel.localAddress tunnel = Some uri) by reflexivity.
  destruct (forward_resume_replaces_in_place 3000 (Some "web"%string) tunnel uri later
              Hhas Haddr) as (Hkeys & Hsize & _).
  split; [exact Hhas|]. split; [exact Haddr|]. split; [exact Hkeys | exact Hsize].
Defined.

(** X10: naming a tunnel never changes an address: after [name], [address]
    answers for every port what it answered before. *)
Theorem name_keeps_addresses (remote : Z) (n : string) (r : Z) (this : t) :
  value_of (address r (model_of (name remote n this))) = value_of (address r this).
Proof.
  run. destruct (JsMap.has remote (forwarded this)); cbn; [|reflexivity].
  unfold or_else. rewrite get_update.
  destruct (remote =? r); [|reflexivity].
  now destruct (JsMap.get r (forwarded this)).
Qed.

(** ** Properties of [RemoteExplorerService] *)

(** X11: the service has one editable slot. After [setEditable(remote,
    data)], [getEditableData] gives [data] for [remote] and nothing for
    every other port, whatever was editable before; after
    [setEditable(remote, null)] it gives nothing for any port, also when the
    port being edited was another one. Either way one change event for
    [remote] is fired, and the target type, the help information and the
    tunnel model are untouched. *)
Theorem editable_slot {IEditableData IExtensionDescription : Type}
    (remote r : Z) (data : option IEditableData)
    (this : RemoteExplorerService.t IEditableData IExtensionDescription) :
  let after := fst (RemoteExplorerService.setEditable remote data this) in
  RemoteExplorerService.getEditableData r after =
    (if remote =? r then data else None) /\
  snd (RemoteExplorerService.setEditable remote data this) =
    [RemoteExplorerService.DidChangeEditable remote] /\
  RemoteExplorerService.targetType after = RemoteExplorerService.targetType this /\
  RemoteExplorerService.helpInformation after = RemoteExplorerService.helpInformation this /\
  RemoteExplorerService.tunnelModel after = RemoteExplorerService.tunnelModel this.
Proof.
  cbn. repeat split.
  unfold RemoteExplorerService.getEditableData. cbn.
  destruct data; [reflexivity | now destruct (remote =? r)].
Qed.

(** X12: setting the target type to a new value stores it under
    [remote.explorerType] in the workspace scope and then in the global
    scope and fires one change event; setting it to the value it has does
    nothing at all, so that setting it twice is as setting it once. In both
    cases the getter returns the value afterwards. *)
Theorem set_targetType_spec {IEditableData IExtensionDescription : Type}
    (name : string)
    (this : RemoteExplorerService.t IEditableData IExtensionDescription) :
  let after := fst (RemoteExplorerService.set_targetType name this) in
  RemoteExplorerService.targetType after = name /\
  (RemoteExplorerService.targetType this = name ->
     RemoteExplorerService.set_targetType name this = (this, [])) /\
  (RemoteExplorerService.targetType this <> name ->
     snd (RemoteExplorerService.set_targetType name this) =
     [RemoteExplorerService.Store "remote.explorerType" name WORKSPACE;
      RemoteExplorerService.Store "remote.explorerType" name GLOBAL;
      RemoteExplorerService.DidChangeTargetType name]) /\
  RemoteExplorerService.set_targetType name after = (after, []).
Proof.
  unfold RemoteExplorerService.set_targetType, RemoteExplorerService.targetType.
  destruct (String.eqb (RemoteExplorerService._targetType this) name) eqn:E; cbn.
  - apply String.eqb_eq in E. repeat split; auto.
    + congruence.
    + rewrite E, String.eqb_refl. reflexivity.
  - apply String.eqb_neq in E. repeat split; auto.
    + intros H. contradiction.
    + rewrite String.eqb_refl. reflexivity.
Qed.

Lemma set_targetType_spec_witness :
  let this : RemoteExplorerService.t unit unit := RemoteExplorerService.init in
  (RemoteExplorerService.targetType this = ""%string /\
   RemoteExplorerService.set_targetType "" this = (this, [])) /\
  (RemoteExplorerService.targetType this <> "ssh"%string /\
   snd (RemoteExplorerService.set_targetType "ssh" this) =
   [RemoteExplorerService.Store "remote.explorerType" "ssh" WORKSPACE;
    RemoteExplorerService.Store "remote.explorerType" "ssh" GLOBAL;
    RemoteExplorerService.DidChangeTargetType "ssh"]).
Proof.
  intros this.
  assert (Hsame : RemoteExplorerService.targetType this = ""%string) by reflexivity.
  assert (Hnew : RemoteExplorerService.targetType this <> "ssh"%string) by discriminate.
  split.
  - split; [exact Hsame|].
    exact (proj1 (proj2 (set_targetType_spec ""%string this)) Hsame).
  - split; [exact Hnew|].
    exact (proj1 (proj2 (proj2 (set_targetType_spec "ssh"%string this))) Hnew).
Defined.

Lemma handle_fold {IExtensionDescription : Type}
    (enableProposedApi : IExtensionDescription -> bool)
    (extensions : list (IExtensionPointUser.t IExtensionDescription))
    (helpInformation : list (HelpInformation.t IExtensionDescription)) :
  fold_left (fun helpInformation extension =>
               RemoteExplorerService._handleRemoteInfoExtensionPoint
                 enableProposedApi extension helpInformation)
    extensions helpInformation =
  helpInformation ++
  List.map help_of (filter (contributes_help enableProposedApi) extensions).
Proof.
  revert helpInformation.
  induction extensions as [|extension rest IH]; intros helpInformation; cbn [fold_left filter].
  - cbn. now rewrite app_nil_r.
  - rewrite IH.
    unfold RemoteExplorerService._handleRemoteInfoExtensionPoint, contributes_help.
    destruct (enableProposedApi (IExtensionPointUser.description extension)); cbn [negb andb];
      [|reflexivity].
    destruct (truthy_string (HelpInformation.documentation (IExtensionPointUser.value extension)));
      destruct (truthy_string (HelpInformation.feedback (IExtensionPointUser.value extension)));
      destruct (truthy_string (HelpInformation.getStarted (IExtensionPointUser.value extension)));
      destruct (truthy_string (HelpInformation.issues (IExtensionPointUser.value extension)));
      cbn [negb andb orb List.map]; try reflexivity;
      now rewrite <- app_assoc.
Qed.

(** X13: when the [remoteHelp] extension point reports its extensions, the
    help information becomes, in the order of the extensions, one entry for
    each extension that may use proposed API and declares at least one
    non-empty link (documentation, feedback, getting started, issues), with
    the extension's own description and its links; what was listed before
    is dropped, and nothing else of the service changes. *)
Theorem remoteHelp_handler_spec {IEditableData IExtensionDescription : Type}
    (enableProposedApi : IExtensionDescription -> bool)
    (extensions : list (IExtensionPointUser.t IExtensionDescription))
    (this : RemoteExplorerService.t IEditableData IExtensionDescription) :
  let after := RemoteExplorerService.remoteHelp_handler enableProposedApi extensions this in
  RemoteExplorerService.helpInformation after =
    List.map help_of (filter (contributes_help enableProposedApi) extensions) /\
  RemoteExplorerService.targetType after = RemoteExplorerService.targetType this /\
  RemoteExplorerService.tunnelModel after = RemoteExplorerService.tunnelModel this /\
  RemoteExplorerService.editable after = RemoteExplorerService.editable this.
Proof.
  cbn. repeat split.
  unfold RemoteExplorerService.helpInformation, RemoteExplorerService.remoteHelp_handler.
  cbn. now rewrite handle_fold.
Qed.

(** ** Properties of the tree the view shows *)

(** X14: every item of the candidates list is labelled "{0} not forwarded"
    with its remote port, is described by the description of the candidate
    it stands for, and is not closeable. *)
Theorem candidate_items_not_forwarded (format : string -> list LocalizeArg -> string)
    (model : t) (item : TunnelItem.t) :
  In item (TunnelViewModel.candidates model) ->
  TunnelItemGetters.label format item =
    format "{0} not forwarded"%string [ArgNumber (Some (TunnelItem.remote item))] /\
  (exists candidate,
     In candidate (JsMap.values (candidates model)) /\
     TunnelItem.remote item = Tunnel.remote candidate /\
     TunnelItemGetters.description format item = Tunnel.description candidate) /\
  TunnelItem.closeable item = Some false.
Proof.
  rewrite candidates_unclaimed. intros Hin.
  apply in_map_iff in Hin. destruct Hin as (candidate & <- & Hin).
  apply filter_In in Hin. destruct Hin as [Hin _].
  split; [reflexivity|]. split; [|reflexivity].
  exists candidate. repeat split. exact Hin.
Qed.

Lemma candidate_items_not_forwarded_witness :
  let uri := mkURI "http://localhost:5000" in
  let detected := Tunnel.mk 5000 uri None None (Some "python"%string) None in
  let model := TunnelModel.mk [] [] [(5000, detected)] in
  let item := candidate_item detected in
  let format := fun (message : string) (args : list LocalizeArg) => message in
  In item (TunnelViewModel.candidates model) /\
  TunnelItemGetters.label format item = "{0} not forwarded"%string.
Proof.
  intros uri detected model item format.
  assert (Hin : In item (TunnelViewModel.candidates model)) by (left; reflexivity).
  split; [exact Hin|].
  exact (proj1 (candidate_items_not_forwarded format model item Hin)).
Defined.

(** The groups, written out. *)
Lemma groups_shape (model : t) :
  TunnelViewModel.groups model =
  shown (nonempty (forwarded model))
    (ITunnelGroup.mk "Forwarded" Forwarded (Some (TunnelViewModel.forwarded model))) ++
  shown (nonempty (published model))
    (ITunnelGroup.mk "Published" Published (Some (TunnelViewModel.published model))) ++
  shown (nonempty (unclaimed model))
    (ITunnelGroup.mk "Candidates" Candidate
       (Some (List.map candidate_item (unclaimed model)))) ++
  [ITunnelGroup.mk "Add a Port..." Add None].
Proof.
  unfold TunnelViewModel.groups, TunnelViewModel.localize.
  rewrite !push_if_shown, !size_pos_nonempty, length_pos_nonempty.
  rewrite candidates_unclaimed, nonempty_map.
  cbn [app]. now rewrite <- !app_assoc.
Qed.

Lemma nonempty_not_nil {A} (l : list A) : nonempty l = true -> l <> [].
Proof. destruct l; [discriminate | discriminate]. Qed.

(** X15: the tree never shows an expandable group with nothing in it. The
    root always has children; a group under the root has children exactly
    when it is not the "Add a Port..." group, and then its list of children
    is not empty. *)
Theorem shown_groups_have_children (model : t) :
  TunnelDataSource.getChildren (TunnelDataSource.ViewModelElement model) <> [] /\
  forall group,
    In (TunnelDataSource.GroupElement group)
       (TunnelDataSource.getChildren (TunnelDataSource.ViewModelElement model)) ->
    (TunnelDataSource.hasChildren (TunnelDataSource.GroupElement group) = true <->
     ITunnelGroup.tunnelType group <> Add) /\
    (TunnelDataSource.hasChildren (TunnelDataSource.GroupElement group) = true ->
     TunnelDataSource.getChildren (TunnelDataSource.GroupElement group) <> []).
Proof.
  cbn [TunnelDataSource.getChildren]. rewrite groups_shape. split.
  - rewrite !map_app. cbn. intros H.
    apply app_eq_nil in H. destruct H as [_ H].
    apply app_eq_nil in H. destruct H as [_ H].
    apply app_eq_nil in H. destruct H as [_ H]. discriminate.
  - intros group Hin. apply in_map_iff in Hin.
    destruct Hin as (g & [= ->] & Hin).
    assert (Hmap : forall A B (f : A -> B) (l : list A), l <> [] -> List.map f l <> []).
    { intros A B f [|x l] H; [contradiction | discriminate]. }
    unfold TunnelViewModel.forwarded, TunnelViewModel.published, JsMap.values in Hin.
    repeat (apply in_app_or in Hin; destruct Hin as [Hin|Hin]).
    + destruct (nonempty (forwarded model)) eqn:N; [|contradiction].
      destruct Hin as [<-|[]]. cbn. repeat split; try discriminate.
      intros _. apply nonempty_not_nil in N. auto.
    + destruct (nonempty (published model)) eqn:N; [|contradiction].
      destruct Hin as [<-|[]]. cbn. repeat split; try discriminate.
      intros _. apply nonempty_not_nil in N. auto.
    + destruct (nonempty (unclaimed model)) eqn:N; [|contradiction].
      destruct Hin as [<-|[]]. cbn. repeat split; try discriminate.
      intros _. apply nonempty_not_nil in N. auto.
    + destruct Hin as [<-|[]]. cbn. repeat split; try discriminate.
      intros H. now contradiction H.
Qed.

Lemma shown_groups_have_children_witness :
  let uri := mkURI "http://localhost:3000" in
  let entry := Tunnel.mk 3000 uri (Some 3000) None None (Some true) in
  let model := TunnelModel.mk [(3000, entry)] [] [] in
  let group :=
    ITunnelGroup.mk "Forwarded" Forwarded (Some (TunnelViewModel.forwarded model)) in
  In (TunnelDataSource.GroupElement group)
     (TunnelDataSource.getChildren (TunnelDataSource.ViewModelElement model)) /\
  TunnelDataSource.hasChildren (TunnelDataSource.GroupElement group) = true /\
  TunnelDataSource.getChildren (TunnelDataSource.GroupElement group) <> [].
Proof.
  intros uri entry model group.
  assert (Hin : In (TunnelDataSource.GroupElement group)
                  (TunnelDataSource.getChildren (TunnelDataSource.ViewModelElement model)))
    by (left; reflexivity).
  assert (Hhas : TunnelDataSource.hasChildren (TunnelDataSource.GroupElement group) = true)
    by reflexivity.
  split; [exact Hin|]. split; [exact Hhas|].
  exact (proj2 (proj2 (shown_groups_have_children model) group Hin) Hhas).
Defined.

(** X16: the tree is two levels deep. An element that reports no children
    has none, and whatever sits two levels below any element (the items of
    the groups of the view model) is a leaf. *)
Theorem tree_depth (element : TunnelDataSource.Element) :
  (TunnelDataSource.hasChildren element = false ->
   TunnelDataSource.getChildren element = []) /\
  (forall child grandchild,
     In child (TunnelDataSource.getChildren element) ->
     In grandchild (TunnelDataSource.getChildren child) ->
     TunnelDataSource.hasChildren grandchild = false /\
     TunnelDataSource.getChildren grandchild = []).
Proof.
  split.
  - destruct element as [model|item|group]; cbn; try discriminate; auto.
    now destruct (ITunnelGroup.items group).
  - intros child grandchild Hchild Hgrand.
    destruct element as [model|item|group]; cbn in Hchild.
    + apply in_map_iff in Hchild. destruct Hchild as (g & <- & _).
      cbn in Hgrand. destruct (ITunnelGroup.items g); [|contradiction].
      apply in_map_iff in Hgrand. destruct Hgrand as (i & <- & _). auto.
    + contradiction.
    + destruct (ITunnelGroup.items group); [|contradiction].
      apply in_map_iff in Hchild. destruct Hchild as (i & <- & _). contradiction.
Qed.

Lemma tree_depth_witness :
  let uri := mkURI "http://localhost:3000" in
  let entry := Tunnel.mk 3000 uri (Some 3000) None None (Some true) in
  let model := TunnelModel.mk [(3000, entry)] [] [] in
  let item := TunnelItem.mk Forwarded 3000 (Some true) None None (Some 3000) in
  let group := ITunnelGroup.mk "Forwarded" Forwarded (Some [item]) in
  In (TunnelDataSource.GroupElement group)
     (TunnelDataSource.getChildren (TunnelDataSource.ViewModelElement model)) /\
  In (TunnelDataSource.ItemElement item)
     (TunnelDataSource.getChildren (TunnelDataSource.GroupElement group)) /\
  TunnelDataSource.hasChildren (TunnelDataSource.ItemElement item) = false /\
  TunnelDataSource.getChildren (TunnelDataSource.ItemElement item) = [].
Proof.
  intros uri entry model item group.
  assert (Hc : In (TunnelDataSource.GroupElement group)
                 (TunnelDataSource.getChildren (TunnelDataSource.ViewModelElement model)))
    by (left; reflexivity).
  assert (Hg : In (TunnelDataSource.ItemElement item)
                 (TunnelDataSource.getChildren (TunnelDataSource.GroupElement group)))
    by (left; reflexivity).
  split; [exact Hc|]. split; [exact Hg|].
  exact (proj2 (tree_depth (TunnelDataSource.ViewModelElement model)) _ _ Hc Hg).
Defined.

(** X17: the remote authority of the panel descriptor is the configured
    one up to its first [+]: it has no [+] in it and the configured
    authority is it followed by nothing or by a [+] and more; an authority
    without [+] is taken as it is, and an empty or missing one gives
    none. *)
Theorem remoteAuthority_prefix (authority : string) :
  TunnelPanelDescriptor.remoteAuthority None = None /\
  TunnelPanelDescriptor.remoteAuthority (Some ""%string) = None /\
  (authority <> ""%string ->
   exists prefix rest,
     TunnelPanelDescriptor.remoteAuthority (Some authority) = Some prefix /\
     plus_free prefix /\
     authority = (prefix ++ rest)%string /\
     (rest = ""%string \/ exists more, rest = String "+"%char more) /\
     (plus_free authority -> prefix = authority)).
Proof.
  split; [reflexivity|]. split; [reflexivity|].
  intros Hne.
  assert (Hseg : plus_free (TunnelPanelDescriptor.first_segment authority) /\
                 (exists rest,
                    authority = (TunnelPanelDescriptor.first_segment authority ++ rest)%string /\
                    (rest = ""%string \/ exists more, rest = String "+"%char more)) /\
                 (plus_free authority ->
                  TunnelPanelDescriptor.first_segment authority = authority)).
  { clear Hne. induction authority as [|c s (IHfree & (rest & IHeq & IHrest) & IHid)]; cbn.
    - repeat split; auto. exists ""%string. auto.
    - destruct (Ascii.eqb c "+"%char) eqn:E.
      + apply Ascii.eqb_eq in E. subst c. cbn. repeat split.
        * exists (String "+"%char s). split; [reflexivity | eauto].
        * intros [H _]. now contradiction H.
      + apply Ascii.eqb_neq in E. cbn. repeat split; auto.
        * exists rest. split; [now rewrite <- IHeq | exact IHrest].
        * intros [_ H]. now rewrite IHid. }
  destruct Hseg as (Hfree & (rest & Heq & Hrest) & Hid).
  exists (TunnelPanelDescriptor.first_segment authority), rest.
  repeat split; auto.
  destruct authority; [contradiction | reflexivity].
Qed.

Lemma remoteAuthority_prefix_witness :
  ("ssh-remote+myhost"%string <> ""%string) /\
  TunnelPanelDescriptor.remoteAuthority (Some "ssh-remote+myhost"%string) =
    Some "ssh-remote"%string /\
  exists prefix rest,
    TunnelPanelDescriptor.remoteAuthority (Some "ssh-remote+myhost"%string) = Some prefix /\
    plus_free prefix /\
    "ssh-remote+myhost"%string = (prefix ++ rest)%string.
Proof.
  assert (Hne : "ssh-remote+myhost"%string <> ""%string) by discriminate.
  split; [exact Hne|]. split; [reflexivity|].
  destruct (proj2 (proj2 (remoteAuthority_prefix "ssh-remote+myhost"%string)) Hne)
    as (prefix & rest & Hp & Hfree & Heq & _).
  exists prefix, rest. split; [exact Hp|]. split; [exact Hfree | exact Heq].
Defined.

(** ** Properties of the commands *)

(** X18: when every forwarded and published entry is stored under its own
    remote port, "Open in Browser" and "Copy Address" agree on an item: both
    act on what [address] answers for the item's port, the one opening it
    and the other copying it, and both do nothing when [address] answers
    nothing. *)
Theorem open_and_copy_agree (item : TunnelItem.t) (model : t) :
  key_consistent (forwarded model) ->
  key_consistent (published model) ->
  Commands.OpenPortInBrowserAction.handler (Commands.ItemArg item) model =
    match value_of (address (TunnelItem.remote item) model) with
    | Some uri => [Commands.OpenerOpen uri]
    | None => []
    end /\
  Commands.CopyAddressAction.handler (Commands.ItemArg item) model =
    match value_of (address (TunnelItem.remote item) model) with
    | Some uri => [Commands.ClipboardWriteText uri]
    | None => []
    end.
Proof.
  intros Hf Hp. split; [|reflexivity].
  unfold Commands.OpenPortInBrowserAction.handler.
  set (r := TunnelItem.remote item).
  unfold JsMap.has.
  destruct (JsMap.get r (forwarded model)) as [entry|] eqn:F.
  - rewrite (Hf _ _ F). reflexivity.
  - destruct (JsMap.get r (published model)) as [entry|] eqn:P.
    + rewrite (Hp _ _ P). reflexivity.
    + run. unfold or_else. now rewrite F, P.
Qed.

Lemma open_and_copy_agree_witness :
  let uri := mkURI "http://localhost:3000" in
  let entry := Tunnel.mk 3000 uri (Some 3000) None None (Some true) in
  let model := TunnelModel.mk [(3000, entry)] [] [] in
  let item := TunnelItem.mk Forwarded 3000 (Some true) None None (Some 3000) in
  key_consistent (forwarded model) /\
  key_consistent (published model) /\
  Commands.OpenPortInBrowserAction.handler (Commands.ItemArg item) model =
    [Commands.OpenerOpen uri] /\
  Commands.CopyAddressAction.handler (Commands.ItemArg item) model =
    [Commands.ClipboardWriteText uri].
Proof.
  intros uri entry model item.
  assert (Hf : key_consistent (forwarded model)).
  { intros k e H. cbn [forwarded model JsMap.get] in H.
    destruct (3000 =? k) eqn:E; [|discriminate H].
    injection H as <-. now apply Z.eqb_eq in E. }
  assert (Hp : key_consistent (published model)) by (intros k e H; discriminate H).
  destruct (open_and_copy_agree item model Hf Hp) as [Hopen Hcopy].
  split; [exact Hf|]. split; [exact Hp|]. split; [exact Hopen | exact Hcopy].
Defined.

(** X19: the forward command calls [forward] only with what the user
    confirmed. Whenever it calls [forward(remote, local, name)], [remote] is
    not zero, the local-port box and the name box were both shown and
    answered, a blank local port means the remote port itself, and a blank
    name means no name (never the empty string); invoked on an item, it
    takes the item's port and never asks for the remote port. *)
Theorem forward_command_arguments (parseInt : string -> JsNumber)
    (arg : Commands.CommandArg) (answers : Commands.Prompt -> option string)
    (remote : Z) (local : JsNumber) (n : option string) :
  Commands.ForwardPortAction.forward
    (Commands.ForwardPortAction.handler parseInt arg answers) = Some (remote, local, n) ->
  remote <> 0 /\
  (exists localAnswer nameAnswer,
     answers (Commands.PickLocal remote) = Some localAnswer /\
     answers Commands.PickName = Some nameAnswer /\
     local = (if String.eqb localAnswer "" then Num remote else parseInt localAnswer) /\
     n = (if String.eqb nameAnswer "" then None else Some nameAnswer)) /\
  (forall item, arg = Commands.ItemArg item ->
     remote = TunnelItem.remote item /\
     Commands.ForwardPortAction.asked
       (Commands.ForwardPortAction.handler parseInt arg answers) =
     [Commands.PickLocal remote; Commands.PickName]) /\
  (arg = Commands.OtherArg ->
     Commands.ForwardPortAction.asked
       (Commands.ForwardPortAction.handler parseInt arg answers) =
     [Commands.PickRemote; Commands.PickLocal remote; Commands.PickName]).
Proof.
  unfold Commands.ForwardPortAction.handler.
  destruct arg as [item|].
  - destruct (TunnelItem.remote item) as [|p|p] eqn:R; [discriminate| |];
      (destruct (answers (Commands.PickLocal _)) as [localAnswer|] eqn:L; [|discriminate];
       destruct (answers Commands.PickName) as [nameAnswer|] eqn:N; [|discriminate];
       cbn; intros H; injection H as <- <- <-;
       split; [discriminate|]; split;
       [ exists localAnswer, nameAnswer; rewrite L; repeat split;
         [ now destruct (String.eqb localAnswer "") | now destruct (String.eqb nameAnswer "") ]
       | split; [| discriminate];
         intros item' H; injection H as <-; rewrite R; split; reflexivity ]).
  - destruct (parseInt _) as [|port]; [discriminate|].
    destruct port as [|p|p]; [discriminate| |];
      (destruct (answers (Commands.PickLocal _)) as [localAnswer|] eqn:L; [|discriminate];
       destruct (answers Commands.PickName) as [nameAnswer|] eqn:N; [|discriminate];
       cbn; intros H; injection H as <- <- <-;
       split; [discriminate|]; split;
       [ exists localAnswer, nameAnswer; rewrite L; repeat split;
         [ now destruct (String.eqb localAnswer "") | now destruct (String.eqb nameAnswer "") ]
       | split; [discriminate | reflexivity] ]).
Qed.

Lemma forward_command_arguments_witness :
  let parseInt := fun s : string => if String.eqb s "3000" then Num 3000 else NaN in
  let answers := fun p : Commands.Prompt =>
    match p with
    | Commands.PickRemote => Some "3000"%string
    | Commands.PickLocal _ => Some ""%string
    | Commands.PickName => Some ""%string
    end in
  Commands.ForwardPortAction.forward
    (Commands.ForwardPortAction.handler parseInt Commands.OtherArg answers) =
    Some (3000, Num 3000, None) /\
  3000 <> 0.
Proof.
  intros parseInt answers.
  assert (H : Commands.ForwardPortAction.forward
                (Commands.ForwardPortAction.handler parseInt Commands.OtherArg answers) =
              Some (3000, Num 3000, None)) by reflexivity.
  split; [exact H|].
  exact (proj1 (forward_command_arguments parseInt Commands.OtherArg answers
                  3000 (Num 3000) None H)).
Defined.

(** X20: dismissing any input box the forward command shows ends the
    command without a call of [forward]. For the first box this rests on
    [parseInt] reading [undefined] as [NaN]. *)
Theorem forward_command_dismissed (parseInt : string -> JsNumber)
    (arg : Commands.CommandArg) (answers : Commands.Prompt -> option string)
    (prompt : Commands.Prompt) :
  parseInt "undefined"%string = NaN ->
  In prompt (Commands.ForwardPortAction.asked
               (Commands.ForwardPortAction.handler parseInt arg answers)) ->
  answers prompt = None ->
  Commands.ForwardPortAction.forward
    (Commands.ForwardPortAction.handler parseInt arg answers) = None.
Proof.
  intros Hnan Hin Hnone.
  destruct (Commands.ForwardPortAction.forward
              (Commands.ForwardPortAction.handler parseInt arg answers))
    as [[[remote local] n]|] eqn:F; [|reflexivity].
  exfalso. revert F Hin. unfold Commands.ForwardPortAction.handler.
  destruct arg as [item|].
  - destruct (TunnelItem.remote item) as [|p|p]; [discriminate| |];
      (destruct (answers (Commands.PickLocal _)) as [localAnswer|] eqn:L; [|discriminate];
       destruct (answers Commands.PickName) as [nameAnswer|] eqn:N; [|discriminate];
       cbn; intros _ [<-|[<-|[]]]; congruence).
  - destruct (answers Commands.PickRemote) as [remoteAnswer|] eqn:R; cbn;
      [| rewrite Hnan; discriminate].
    destruct (parseInt remoteAnswer) as [|port]; [discriminate|].
    destruct port as [|p|p]; [discriminate| |];
      (destruct (answers (Commands.PickLocal _)) as [localAnswer|] eqn:L; [|discriminate];
       destruct (answers Commands.PickName) as [nameAnswer|] eqn:N; [|discriminate];
       cbn; intros _ [<-|[<-|[<-|[]]]]; congruence).
Qed.

Lemma forward_command_dismissed_witness :
  let parseInt := fun s : string => if String.eqb s "3000" then Num 3000 else NaN in
  let answers := fun p : Commands.Prompt =>
    match p with
    | Commands.PickRemote => Some "3000"%string
    | Commands.PickLocal _ => Some "3000"%string
    | Commands.PickName => None
    end in
  parseInt "undefined"%string = NaN /\
  In Commands.PickName
     (Commands.ForwardPortAction.asked
        (Commands.ForwardPortAction.handler parseInt Commands.OtherArg answers)) /\
  answers Commands.PickName = None /\
  Commands.ForwardPortAction.forward
    (Commands.ForwardPortAction.handler parseInt Commands.OtherArg answers) = None.
Proof.
  intros parseInt answers.
  assert (Hnan : parseInt "undefined"%string = NaN) by reflexivity.
  assert (Hin : In Commands.PickName
                  (Commands.ForwardPortAction.asked
                     (Commands.ForwardPortAction.handler parseInt Commands.OtherArg answers)))
    by (right; right; left; reflexivity).
  assert (Hnone : answers Commands.PickName = None) by reflexivity.
  split; [exact Hnan|]. split; [exact Hin|]. split; [exact Hnone|].
  exact (forward_command_dismissed parseInt Commands.OtherArg answers Commands.PickName
           Hnan Hin Hnone).
Defined.

(** X21: naming a tunnel from the view. The name command makes the item's
    port the editable one, with the item's current name as starting value,
    and leaves the model alone. When the input box finishes, nothing is
    editable any more, whatever the outcome; the model is renamed through
    [name] (which does nothing for a port that is not forwarded) when the
    input was accepted and is untouched when it was not; and the editable
    change event comes last, after the model's own event. *)
Theorem name_command_flow {IExtensionDescription : Type}
    (item : TunnelItem.t) (value : string) (success : bool)
    (service : RemoteExplorerService.t Commands.NameTunnelAction.Editable
                 IExtensionDescription) :
  let port := TunnelItem.remote item in
  let data := Commands.NameTunnelAction.mkEditable port (TunnelItem.name item) in
  let started := Commands.NameTunnelAction.handler (Commands.ItemArg item) service in
  let finished := Commands.NameTunnelAction.onFinish data value success (fst started) in
  let renamed := name port value (RemoteExplorerService.tunnelModel service) in
  RemoteExplorerService.getEditableData port (fst started) = Some data /\
  snd started = [Commands.Explorer (RemoteExplorerService.DidChangeEditable port)] /\
  RemoteExplorerService.tunnelModel (fst started) =
    RemoteExplorerService.tunnelModel service /\
  (forall r, RemoteExplorerService.getEditableData r (fst finished) = None) /\
  RemoteExplorerService.tunnelModel (fst finished) =
    (if success then model_of renamed else RemoteExplorerService.tunnelModel service) /\
  snd finished =
    (if success then List.map Commands.Model (fired_of renamed) else []) ++
    [Commands.Explorer (RemoteExplorerService.DidChangeEditable port)].
Proof.
  cbv zeta.
  unfold Commands.NameTunnelAction.handler, Commands.NameTunnelAction.onFinish,
    Commands.NameTunnelAction.name_tunnel, RemoteExplorerService.setEditable,
    RemoteExplorerService.getEditableData, RemoteExplorerService.tunnelModel.
  cbn [fst snd List.map RemoteExplorerService.editable RemoteExplorerService._tunnelModel
       Commands.NameTunnelAction.remote].
  rewrite Z.eqb_refl.
  destruct success;
    cbn [fst snd List.map RemoteExplorerService.editable RemoteExplorerService._tunnelModel
         app];
    repeat split.
Qed.

(** X22: [forward] is idempotent by absence. Once a [forward] for a port
    has succeeded, another [forward] for that port sends nothing to the
    service, changes nothing and fires nothing, whatever local port and name
    it is given. *)
Theorem forward_again_does_nothing (remote : Z) (n : option string)
    (tunnel : RemoteTunnel.t) (uri : URI) (this : t)
    (local' : option Z) (n' : option string) (reply' : OpenReply) :
  RemoteTunnel.localAddress tunnel = Some uri ->
  let forwarded_once := model_of (forward_resume remote n (Resolved (Some tunnel)) this) in
  forward_call remote local' forwarded_once = (None, forwarded_once, []) /\
  forward remote local' n' reply' forwarded_once = (Fulfilled, forwarded_once, []).
Proof.
  intros Haddr. cbv zeta. rewrite (forward_resume_model _ _ _ _ _ Haddr).
  cbv zeta. cbn [model_of fst snd].
  unfold forward, forward_call, bind, gets, ret.
  cbn [forwarded with_forwarded]. rewrite has_set, Z.eqb_refl.
  split; reflexivity.
Qed.

Lemma forward_again_does_nothing_witness :
  let uri := mkURI "http://localhost:8080" in
  let tunnel := RemoteTunnel.mk 8080 (Some 8080) (Some uri) in
  let forwarded_once := model_of (forward_resume 8080 None (Resolved (Some tunnel)) init) in
  RemoteTunnel.localAddress tunnel = Some uri /\
  forward 8080 (Some 9090) (Some "again"%string) (Resolved (Some tunnel)) forwarded_once =
  (Fulfilled, forwarded_once, []).
Proof.
  intros uri tunnel forwarded_once.
  assert (Haddr : RemoteTunnel.localAddress tunnel = Some uri) by reflexivity.
  split; [exact Haddr|].
  exact (proj2 (forward_again_does_nothing 8080 None tunnel uri init
                  (Some 9090) (Some "again"%string) (Resolved (Some tunnel)) Haddr)).
Defined.
